(** * LSM303 accelerometer / magnetometer driver (LSM303.cpp)

    A shallow embedding of the driver methods of [LSM303.cpp] and the
    properties of variant detection, register routing, sample decoding and
    calibration offset that hold (or fail) on them.

    The driver talks to the outside world only through the Arduino [Wire]
    object and [millis()].  Driver methods are therefore written as programs
    in a small monad of bus calls ([prog]): a method is a tree whose nodes are
    the [Wire] calls it issues, in source order, and whose branches are the
    values the bus answers.  A bus is any [handler]; running a program on a
    bus gives its result, the calls it made and the answers it got. *)

From Stdlib Require Import ZArith List Bool Lia.
Import ListNotations.
Open Scope Z_scope.

(** ** Machine integers *)

(** [byte] (uint8_t): conversion from a wider integer keeps the low 8 bits. *)
Definition to_byte (v : Z) : Z := v mod 256.

(** [(int16_t)] conversion, two's complement wrap-around. *)
Definition to_int16 (v : Z) : Z := (v + 32768) mod 65536 - 32768.

(** [(int32_t)] arithmetic, two's complement wrap-around. *)
Definition to_int32 (v : Z) : Z := (v + 2147483648) mod 4294967296 - 2147483648.

(** [unsigned int] of the target: [bits] wide (16 on AVR, 32 on ARM). *)
Definition to_uint (bits : Z) (v : Z) : Z := v mod 2 ^ bits.

Definition is_byte (v : Z) : Prop := 0 <= v < 256.
Definition is_int16 (v : Z) : Prop := -32768 <= v <= 32767.
Definition is_int32 (v : Z) : Prop := -2147483648 <= v <= 2147483647.

(** ** Bus calls and programs over them *)

(** The calls the driver makes on [Wire], and [millis()]. *)
Inductive WireOp : Type :=
| Wire_beginTransmission (address : Z)
| Wire_write (data : Z)
| Wire_endTransmission
| Wire_requestFrom (address quantity : Z)
| Wire_available
| Wire_read
| millis.

(** A driver method: it returns, or makes a call and goes on with the answer,
    or is still inside its polling loop when the iteration budget is used up
    ([Spin]). *)
Inductive prog (R : Type) : Type :=
| Ret (r : R)
| Call (op : WireOp) (k : Z -> prog R)
| Spin.

Arguments Ret {R} r.
Arguments Call {R} op k.
Arguments Spin {R}.

Fixpoint bind {R S : Type} (p : prog R) (f : R -> prog S) : prog S :=
  match p with
  | Ret r => f r
  | Call op k => Call op (fun v => bind (k v) f)
  | Spin => Spin
  end.

Definition call (op : WireOp) : prog Z := Call op (fun v => Ret v).

Declare Scope prog_scope.
Delimit Scope prog_scope with prog.
Notation "x <- c1 ;; c2" := (bind c1 (fun x => c2))
  (at level 61, c1 at next level, right associativity) : prog_scope.
Notation "' pat <- c1 ;; c2" := (bind c1 (fun v => match v with pat => c2 end))
  (at level 61, pat pattern, c1 at next level, right associativity) : prog_scope.
Notation "c1 ;; c2" := (bind c1 (fun _ => c2))
  (at level 61, right associativity) : prog_scope.
Open Scope prog_scope.

(** A bus: how each call changes the world and what it answers.  Calls whose
    C++ result the driver ignores answer a value that is never looked at. *)
Definition handler (W : Type) : Type := WireOp -> W -> Z * W.

Section Run.
Context {W R : Type} (h : handler W).

(** Result and final world of a program on a bus; [None] while polling. *)
Fixpoint exec (p : prog R) (w : W) : option (R * W) :=
  match p with
  | Ret r => Some (r, w)
  | Call op k => let (v, w') := h op w in exec (k v) w'
  | Spin => None
  end.

(** The calls the program issues, in order. *)
Fixpoint calls (p : prog R) (w : W) : list WireOp :=
  match p with
  | Call op k => let (v, w') := h op w in op :: calls (k v) w'
  | _ => []
  end.

(** The answers the bus gives, in order. *)
Fixpoint responses (p : prog R) (w : W) : list Z :=
  match p with
  | Call op k => let (v, w') := h op w in v :: responses (k v) w'
  | _ => []
  end.

End Run.

(** Running a program against a scripted list of answers. *)
Fixpoint replay {R : Type} (p : prog R) (script : list Z) : option R :=
  match p with
  | Ret r => Some r
  | Call op k =>
      match script with
      | [] => None
      | v :: rest => replay (k v) rest
      end
  | Spin => None
  end.

Definition result {W R : Type} (h : handler W) (p : prog R) (w : W) : option R :=
  option_map fst (exec h p w).

(** ** Driver data *)

Inductive deviceType : Type :=
| device_DLH | device_DLM | device_DLHC | device_D | device_auto.

Inductive sa0State : Type := sa0_low | sa0_high | sa0_auto.

Definition deviceType_eqb (d e : deviceType) : bool :=
  match d, e with
  | device_DLH, device_DLH | device_DLM, device_DLM
  | device_DLHC, device_DLHC | device_D, device_D
  | device_auto, device_auto => true
  | _, _ => false
  end.

Definition sa0State_eqb (p q : sa0State) : bool :=
  match p, q with
  | sa0_low, sa0_low | sa0_high, sa0_high | sa0_auto, sa0_auto => true
  | _, _ => false
  end.

(** [vector<T>]: three components. *)
Module vector.
Record t : Type := mk { x : Z; y : Z; z : Z }.
End vector.

(** A [vector<int16_t>], as the members [a], [m], [m_min] and [m_max] are. *)
Definition int16_vector (v : vector.t) : Prop :=
  is_int16 (vector.x v) /\ is_int16 (vector.y v) /\ is_int16 (vector.z v).

(** The enumerators of [regAddr] that the methods below use.  [regAddr] is
    declared in LSM303.h, which is not among the sources, so the table is a
    parameter of the driver. *)
Record regAddr : Type := {
  WHO_AM_I : Z;
  CTRL_REG1_A : Z;
  OUT_X_L_A : Z;
  TEMP_OUT_H_M : Z;
  TEMP_OUT_L_M : Z;
  OUT_X_H_M : Z; OUT_X_L_M : Z;
  OUT_Y_H_M : Z; OUT_Y_L_M : Z;
  OUT_Z_H_M : Z; OUT_Z_L_M : Z;
  DLH_OUT_X_H_M : Z; DLH_OUT_X_L_M : Z;
  DLH_OUT_Y_H_M : Z; DLH_OUT_Y_L_M : Z;
  DLH_OUT_Z_H_M : Z; DLH_OUT_Z_L_M : Z;
  DLM_OUT_X_H_M : Z; DLM_OUT_X_L_M : Z;
  DLM_OUT_Z_H_M : Z; DLM_OUT_Z_L_M : Z;
  DLM_OUT_Y_H_M : Z; DLM_OUT_Y_L_M : Z;
  DLHC_OUT_X_H_M : Z; DLHC_OUT_X_L_M : Z;
  DLHC_OUT_Z_H_M : Z; DLHC_OUT_Z_L_M : Z;
  DLHC_OUT_Y_H_M : Z; DLHC_OUT_Y_L_M : Z;
  D_OUT_X_L_M : Z; D_OUT_X_H_M : Z;
  D_OUT_Y_L_M : Z; D_OUT_Y_H_M : Z;
  D_OUT_Z_L_M : Z; D_OUT_Z_H_M : Z
}.

(** The member variables of an [LSM303] object. *)
Record LSM303 : Type := mkLSM303 {
  a : vector.t;
  m : vector.t;
  m_max : vector.t;
  m_min : vector.t;
  last_status : Z;
  _device : deviceType;
  acc_address : Z;
  mag_address : Z;
  out_x_h_m : Z; out_x_l_m : Z;
  out_y_h_m : Z; out_y_l_m : Z;
  out_z_h_m : Z; out_z_l_m : Z;
  io_timeout : Z;
  did_timeout : bool
}.

Definition set_a (v : vector.t) (s : LSM303) : LSM303 :=
  mkLSM303 v (m s) (m_max s) (m_min s) (last_status s) (_device s)
    (acc_address s) (mag_address s) (out_x_h_m s) (out_x_l_m s) (out_y_h_m s)
    (out_y_l_m s) (out_z_h_m s) (out_z_l_m s) (io_timeout s) (did_timeout s).

Definition set_m (v : vector.t) (s : LSM303) : LSM303 :=
  mkLSM303 (a s) v (m_max s) (m_min s) (last_status s) (_device s)
    (acc_address s) (mag_address s) (out_x_h_m s) (out_x_l_m s) (out_y_h_m s)
    (out_y_l_m s) (out_z_h_m s) (out_z_l_m s) (io_timeout s) (did_timeout s).

Definition set_last_status (v : Z) (s : LSM303) : LSM303 :=
  mkLSM303 (a s) (m s) (m_max s) (m_min s) v (_device s)
    (acc_address s) (mag_address s) (out_x_h_m s) (out_x_l_m s) (out_y_h_m s)
    (out_y_l_m s) (out_z_h_m s) (out_z_l_m s) (io_timeout s) (did_timeout s).

Definition set_io_timeout (v : Z) (s : LSM303) : LSM303 :=
  mkLSM303 (a s) (m s) (m_max s) (m_min s) (last_status s) (_device s)
    (acc_address s) (mag_address s) (out_x_h_m s) (out_x_l_m s) (out_y_h_m s)
    (out_y_l_m s) (out_z_h_m s) (out_z_l_m s) v (did_timeout s).

Definition set_did_timeout (v : bool) (s : LSM303) : LSM303 :=
  mkLSM303 (a s) (m s) (m_max s) (m_min s) (last_status s) (_device s)
    (acc_address s) (mag_address s) (out_x_h_m s) (out_x_l_m s) (out_y_h_m s)
    (out_y_l_m s) (out_z_h_m s) (out_z_l_m s) (io_timeout s) v.

(** ** Defines *)

Definition D_SA0_HIGH_ADDRESS : Z := 29.          (* 0b0011101 *)
Definition D_SA0_LOW_ADDRESS : Z := 30.           (* 0b0011110 *)
Definition NON_D_MAG_ADDRESS : Z := 30.           (* 0b0011110 *)
Definition NON_D_ACC_SA0_LOW_ADDRESS : Z := 24.   (* 0b0011000 *)
Definition NON_D_ACC_SA0_HIGH_ADDRESS : Z := 25.  (* 0b0011001 *)

Definition TEST_REG_NACK : Z := -1.

Definition D_WHO_ID : Z := 73.    (* 0x49 *)
Definition DLM_WHO_ID : Z := 60.  (* 0x3C *)

(** ** The driver methods *)

Section Driver.

(** The register table of LSM303.h and the width of [unsigned int]. *)
Variable H : regAddr.
Variable uint_bits : Z.

(** [LSM303::LSM303]; [s] is the storage the object is constructed in, whose
    other members the constructor leaves as they are. *)
Definition LSM303_LSM303 (s : LSM303) : LSM303 :=
  mkLSM303 (a s) (m s)
    (vector.mk 32767 32767 32767)
    (vector.mk (-32767) (-32767) (-32767))
    (last_status s) device_auto
    (acc_address s) (mag_address s) (out_x_h_m s) (out_x_l_m s) (out_y_h_m s)
    (out_y_l_m s) (out_z_h_m s) (out_z_l_m s)
    0 false.

Definition timeoutOccurred (s : LSM303) : bool := did_timeout s.

Definition setTimeout (timeout : Z) (s : LSM303) : LSM303 :=
  set_io_timeout (to_uint uint_bits timeout) s.

Definition getTimeout (s : LSM303) : Z := io_timeout s.

(** [LSM303::testReg]: the byte read from [reg] at [address], or
    [TEST_REG_NACK] when nothing is available after the request. *)
Definition testReg (address reg : Z) (s : LSM303) : prog (Z * LSM303) :=
  call (Wire_beginTransmission (to_byte address)) ;;
  call (Wire_write (to_byte reg)) ;;
  st <- call Wire_endTransmission ;;
  let s := set_last_status (to_byte st) s in
  call (Wire_requestFrom (to_byte address) 1) ;;
  n <- call Wire_available ;;
  if n =? 0 then Ret (TEST_REG_NACK, s)
  else v <- call Wire_read ;; Ret (v, s).

(** [init], lines 54-99: determine the device type if necessary.  The result
    is the pair of locals ([device], [sa0]), or [None] after [return false]. *)
Definition init_device (device : deviceType) (sa0 : sa0State) (s : LSM303)
  : prog (option (deviceType * sa0State) * LSM303) :=
  match device with
  | device_auto =>
      '(r, s) <- testReg D_SA0_HIGH_ADDRESS (WHO_AM_I H) s ;;
      if r =? D_WHO_ID then Ret (Some (device_D, sa0_high), s)
      else
        '(r, s) <- testReg D_SA0_LOW_ADDRESS (WHO_AM_I H) s ;;
        if r =? D_WHO_ID then Ret (Some (device_D, sa0_low), s)
        else if r =? DLM_WHO_ID then Ret (Some (device_DLM, sa0), s)
        else
          '(r, s) <- testReg NON_D_ACC_SA0_HIGH_ADDRESS (CTRL_REG1_A H) s ;;
          if negb (r =? TEST_REG_NACK) then Ret (Some (device_DLHC, sa0_high), s)
          else
            '(r, s) <- testReg NON_D_ACC_SA0_LOW_ADDRESS (CTRL_REG1_A H) s ;;
            if negb (r =? TEST_REG_NACK) then Ret (Some (device_DLH, sa0_low), s)
            else Ret (None, s)
  | _ => Ret (Some (device, sa0), s)
  end.

(** [init], lines 101-136: determine SA0 if necessary.  The result is the
    local [sa0], or [None] after [return false]. *)
Definition init_sa0 (device : deviceType) (sa0 : sa0State) (s : LSM303)
  : prog (option sa0State * LSM303) :=
  match sa0 with
  | sa0_auto =>
      match device with
      | device_D =>
          '(r, s) <- testReg D_SA0_HIGH_ADDRESS (WHO_AM_I H) s ;;
          if r =? D_WHO_ID then Ret (Some sa0_high, s)
          else
            '(r, s) <- testReg D_SA0_HIGH_ADDRESS (WHO_AM_I H) s ;;
            if r =? D_WHO_ID then Ret (Some sa0_low, s)
            else Ret (None, s)
      | device_DLM | device_DLH =>
          '(r, s) <- testReg NON_D_ACC_SA0_HIGH_ADDRESS (CTRL_REG1_A H) s ;;
          if negb (r =? TEST_REG_NACK) then Ret (Some sa0_high, s)
          else
            '(r, s) <- testReg NON_D_ACC_SA0_LOW_ADDRESS (CTRL_REG1_A H) s ;;
            if negb (r =? TEST_REG_NACK) then Ret (Some sa0_low, s)
            else Ret (None, s)
      | _ => Ret (Some sa0, s)
      end
  | _ => Ret (Some sa0, s)
  end.

(** [init], lines 138-185: store the device type, the device addresses and
    the translated register addresses. *)
Definition init_addresses (device : deviceType) (sa0 : sa0State) (s : LSM303)
  : LSM303 :=
  match device with
  | device_D =>
      let address := if sa0State_eqb sa0 sa0_high
                     then D_SA0_HIGH_ADDRESS else D_SA0_LOW_ADDRESS in
      mkLSM303 (a s) (m s) (m_max s) (m_min s) (last_status s) device
        address address
        (D_OUT_X_H_M H) (D_OUT_X_L_M H) (D_OUT_Y_H_M H) (D_OUT_Y_L_M H)
        (D_OUT_Z_H_M H) (D_OUT_Z_L_M H) (io_timeout s) (did_timeout s)
  | device_DLHC =>
      mkLSM303 (a s) (m s) (m_max s) (m_min s) (last_status s) device
        NON_D_ACC_SA0_HIGH_ADDRESS NON_D_MAG_ADDRESS
        (DLHC_OUT_X_H_M H) (DLHC_OUT_X_L_M H) (DLHC_OUT_Y_H_M H)
        (DLHC_OUT_Y_L_M H) (DLHC_OUT_Z_H_M H) (DLHC_OUT_Z_L_M H)
        (io_timeout s) (did_timeout s)
  | device_DLM =>
      mkLSM303 (a s) (m s) (m_max s) (m_min s) (last_status s) device
        (if sa0State_eqb sa0 sa0_high
         then NON_D_ACC_SA0_HIGH_ADDRESS else NON_D_ACC_SA0_LOW_ADDRESS)
        NON_D_MAG_ADDRESS
        (DLM_OUT_X_H_M H) (DLM_OUT_X_L_M H) (DLM_OUT_Y_H_M H)
        (DLM_OUT_Y_L_M H) (DLM_OUT_Z_H_M H) (DLM_OUT_Z_L_M H)
        (io_timeout s) (did_timeout s)
  | device_DLH =>
      mkLSM303 (a s) (m s) (m_max s) (m_min s) (last_status s) device
        (if sa0State_eqb sa0 sa0_high
         then NON_D_ACC_SA0_HIGH_ADDRESS else NON_D_ACC_SA0_LOW_ADDRESS)
        NON_D_MAG_ADDRESS
        (DLH_OUT_X_H_M H) (DLH_OUT_X_L_M H) (DLH_OUT_Y_H_M H)
        (DLH_OUT_Y_L_M H) (DLH_OUT_Z_H_M H) (DLH_OUT_Z_L_M H)
        (io_timeout s) (did_timeout s)
  | device_auto =>
      mkLSM303 (a s) (m s) (m_max s) (m_min s) (last_status s) device
        (acc_address s) (mag_address s) (out_x_h_m s) (out_x_l_m s)
        (out_y_h_m s) (out_y_l_m s) (out_z_h_m s) (out_z_l_m s)
        (io_timeout s) (did_timeout s)
  end.

(** The two detection steps of [init] in sequence: the locals ([device],
    [sa0]) with which line 138 is reached, or [None] after [return false]. *)
Definition init_resolve (device : deviceType) (sa0 : sa0State) (s : LSM303)
  : prog (option (deviceType * sa0State) * LSM303) :=
  '(r, s) <- init_device device sa0 s ;;
  match r with
  | None => Ret (None, s)
  | Some (device, sa0) =>
      '(r, s) <- init_sa0 device sa0 s ;;
      match r with
      | None => Ret (None, s)
      | Some sa0 => Ret (Some (device, sa0), s)
      end
  end.

(** [LSM303::init].  The value is what the [bool] function returns:
    [Some false] after [return false]; [None] when control reaches the closing
    brace of the function (line 186), where no [return] statement gives the
    result a value. *)
Definition init (device : deviceType) (sa0 : sa0State) (s : LSM303)
  : prog (option bool * LSM303) :=
  '(r, s) <- init_resolve device sa0 s ;;
  match r with
  | None => Ret (Some false, s)
  | Some (device, sa0) => Ret (None, init_addresses device sa0 s)
  end.

(** [LSM303::writeAccReg]. *)
Definition writeAccReg (reg value : Z) (s : LSM303) : prog (unit * LSM303) :=
  call (Wire_beginTransmission (acc_address s)) ;;
  call (Wire_write (to_byte reg)) ;;
  call (Wire_write (to_byte value)) ;;
  st <- call Wire_endTransmission ;;
  Ret (tt, set_last_status (to_byte st) s).

(** [LSM303::readAccReg]. *)
Definition readAccReg (reg : Z) (s : LSM303) : prog (Z * LSM303) :=
  call (Wire_beginTransmission (acc_address s)) ;;
  call (Wire_write (to_byte reg)) ;;
  st <- call Wire_endTransmission ;;
  let s := set_last_status (to_byte st) s in
  call (Wire_requestFrom (acc_address s) 1) ;;
  value <- call Wire_read ;;
  call Wire_endTransmission ;;
  Ret (to_byte value, s).

(** [LSM303::writeMagReg]. *)
Definition writeMagReg (reg value : Z) (s : LSM303) : prog (unit * LSM303) :=
  call (Wire_beginTransmission (mag_address s)) ;;
  call (Wire_write (to_byte reg)) ;;
  call (Wire_write (to_byte value)) ;;
  st <- call Wire_endTransmission ;;
  Ret (tt, set_last_status (to_byte st) s).

(** [readMagReg], lines 263-287: the register address after the [switch] on
    the dummy register addresses (cases in source order). *)
Definition translate (reg : Z) (s : LSM303) : Z :=
  if reg <? 0 then
    if reg =? OUT_X_H_M H then out_x_h_m s
    else if reg =? OUT_X_L_M H then out_x_l_m s
    else if reg =? OUT_Y_H_M H then out_y_h_m s
    else if reg =? OUT_Y_L_M H then out_y_l_m s
    else if reg =? OUT_Z_H_M H then out_z_h_m s
    else if reg =? OUT_Z_L_M H then out_z_l_m s
    else reg
  else reg.

(** [LSM303::readMagReg]. *)
Definition readMagReg (reg : Z) (s : LSM303) : prog (Z * LSM303) :=
  let reg := translate reg s in
  call (Wire_beginTransmission (mag_address s)) ;;
  call (Wire_write (to_byte reg)) ;;
  st <- call Wire_endTransmission ;;
  let s := set_last_status (to_byte st) s in
  call (Wire_requestFrom (mag_address s) 1) ;;
  value <- call Wire_read ;;
  call Wire_endTransmission ;;
  Ret (to_byte value, s).

(** The condition of the [if] in [writeReg] (line 303) and [readReg]
    (line 317); its last operand is the enumerator [TEMP_OUT_L_M] itself,
    converted to [bool]. *)
Definition uses_mag (reg : Z) (s : LSM303) : bool :=
  deviceType_eqb (_device s) device_D
  || (reg <? CTRL_REG1_A H)
  || (reg =? TEMP_OUT_H_M H)
  || negb (TEMP_OUT_L_M H =? 0).

(** [LSM303::writeReg]. *)
Definition writeReg (reg value : Z) (s : LSM303) : prog (unit * LSM303) :=
  if uses_mag reg s then writeMagReg reg value s
  else writeAccReg reg value s.

(** [LSM303::readReg]. *)
Definition readReg (reg : Z) (s : LSM303) : prog (Z * LSM303) :=
  if uses_mag reg s then readMagReg reg s
  else readAccReg reg s.

(** The polling loop of [readAcc] (lines 339-345) and of [readMag]
    (lines 382-388, the same text), run for at most [fuel] iterations.
    [true]: six bytes are available and the method goes on; [false]: the
    [return] inside the loop was taken. *)
Fixpoint wait_available (fuel : nat) (millis_start : Z) (s : LSM303)
  : prog (bool * LSM303) :=
  match fuel with
  | O => Spin
  | S fuel' =>
      n <- call Wire_available ;;
      if n <? 6 then
        if 0 <? io_timeout s then
          t <- call millis ;;
          if to_uint uint_bits (to_uint uint_bits t - millis_start) >? io_timeout s
          then Ret (false, set_did_timeout true s)
          else wait_available fuel' millis_start s
        else wait_available fuel' millis_start s
      else Ret (true, s)
  end.

(** [(int16_t)(h << 8 | l)]. *)
Definition combine (h l : Z) : Z := to_int16 (Z.lor (Z.shiftl h 8) l).

(** [v >>= 4] on an [int16_t] (arithmetic shift, as the comment at
    lines 358-361 requires of the compiler). *)
Definition shift4 (v : Z) : Z := to_int16 (Z.shiftr v 4).

(** [LSM303::readAcc]. *)
Definition readAcc (fuel : nat) (s : LSM303) : prog (unit * LSM303) :=
  call (Wire_beginTransmission (acc_address s)) ;;
  call (Wire_write (to_byte (Z.lor (OUT_X_L_A H) (Z.shiftl 1 7)))) ;;
  st <- call Wire_endTransmission ;;
  let s := set_last_status (to_byte st) s in
  call (Wire_requestFrom (acc_address s) 6) ;;
  t <- call millis ;;
  let millis_start := to_uint uint_bits t in
  let s := set_did_timeout false s in
  '(ready, s) <- wait_available fuel millis_start s ;;
  if ready then
    xla <- call Wire_read ;;
    xha <- call Wire_read ;;
    yla <- call Wire_read ;;
    yha <- call Wire_read ;;
    zla <- call Wire_read ;;
    zha <- call Wire_read ;;
    let ax := combine (to_byte xha) (to_byte xla) in
    let ay := combine (to_byte yha) (to_byte yla) in
    let az := combine (to_byte zha) (to_byte zla) in
    if negb (deviceType_eqb (_device s) device_D)
    then Ret (tt, set_a (vector.mk (shift4 ax) (shift4 ay) (shift4 az)) s)
    else Ret (tt, set_a (vector.mk ax ay az) s)
  else Ret (tt, s).

(** [LSM303::readMag]. *)
Definition readMag (fuel : nat) (s : LSM303) : prog (unit * LSM303) :=
  call (Wire_beginTransmission (mag_address s)) ;;
  call (Wire_write (to_byte (if deviceType_eqb (_device s) device_D
                             then Z.lor (out_x_l_m s) (Z.shiftl 1 7)
                             else out_x_h_m s))) ;;
  st <- call Wire_endTransmission ;;
  let s := set_last_status (to_byte st) s in
  call (Wire_requestFrom (mag_address s) 6) ;;
  t <- call millis ;;
  let millis_start := to_uint uint_bits t in
  let s := set_did_timeout false s in
  '(ready, s) <- wait_available fuel millis_start s ;;
  if ready then
    '(xlm, xhm, ylm, yhm, zlm, zhm) <-
      (if deviceType_eqb (_device s) device_D then
         xlm <- call Wire_read ;;
         xhm <- call Wire_read ;;
         ylm <- call Wire_read ;;
         yhm <- call Wire_read ;;
         zlm <- call Wire_read ;;
         zhm <- call Wire_read ;;
         Ret (to_byte xlm, to_byte xhm, to_byte ylm, to_byte yhm,
              to_byte zlm, to_byte zhm)
       else
         xhm <- call Wire_read ;;
         xlm <- call Wire_read ;;
         if deviceType_eqb (_device s) device_DLH then
           yhm <- call Wire_read ;;
           ylm <- call Wire_read ;;
           zhm <- call Wire_read ;;
           zlm <- call Wire_read ;;
           Ret (to_byte xlm, to_byte xhm, to_byte ylm, to_byte yhm,
                to_byte zlm, to_byte zhm)
         else
           zhm <- call Wire_read ;;
           zlm <- call Wire_read ;;
           yhm <- call Wire_read ;;
           ylm <- call Wire_read ;;
           Ret (to_byte xlm, to_byte xhm, to_byte ylm, to_byte yhm,
                to_byte zlm, to_byte zhm)) ;;
    Ret (tt, set_m (vector.mk (combine xhm xlm) (combine yhm ylm)
                              (combine zhm zlm)) s)
  else Ret (tt, s).

(** [LSM303::read]. *)
Definition read (fuel : nat) (s : LSM303) : prog (unit * LSM303) :=
  '(_, s) <- readAcc fuel s ;;
  readMag fuel s.

(** [((int32_t)m_min.x + m_max.x) / 2] (lines 462-464): the sum and the
    division, which truncates towards zero, in [int32_t]. *)
Definition midpoint (lo hi : Z) : Z :=
  Z.quot (to_int32 (to_int32 lo + to_int32 hi)) 2.

(** [heading], lines 459-464: the magnetometer reading with the calibration
    offset subtracted, in [int32_t] arithmetic.  (The rest of [heading] is
    floating point and is not part of this development.) *)
Definition heading_temp_m (s : LSM303) : vector.t :=
  let sub (mv lo hi : Z) := to_int32 (to_int32 mv - midpoint lo hi) in
  vector.mk
    (sub (vector.x (m s)) (vector.x (m_min s)) (vector.x (m_max s)))
    (sub (vector.y (m s)) (vector.y (m_min s)) (vector.y (m_max s)))
    (sub (vector.z (m s)) (vector.z (m_min s)) (vector.z (m_max s))).

End Driver.

(** ** Buses *)

(** A scripted bus: for each kind of call whose answer the driver looks at,
    the answers of its successive calls.  Any behaviour of the transport is
    such a script. *)
Record wire : Type := mk_wire {
  on_endTransmission : nat -> Z;
  on_available : nat -> Z;
  on_read : nat -> Z;
  on_millis : nat -> Z
}.

Definition next (f : nat -> Z) : nat -> Z := fun k => f (S k).

Definition wire_h : handler wire := fun op w =>
  match op with
  | Wire_endTransmission =>
      (on_endTransmission w O,
       mk_wire (next (on_endTransmission w)) (on_available w) (on_read w)
               (on_millis w))
  | Wire_available =>
      (on_available w O,
       mk_wire (on_endTransmission w) (next (on_available w)) (on_read w)
               (on_millis w))
  | Wire_read =>
      (on_read w O,
       mk_wire (on_endTransmission w) (on_available w) (next (on_read w))
               (on_millis w))
  | millis =>
      (on_millis w O,
       mk_wire (on_endTransmission w) (on_available w) (on_read w)
               (next (on_millis w)))
  | _ => (0, w)
  end.

(** A bench bus with chips on it: [chips address reg] is the content of
    register [reg] of the chip at [address], [None] where nothing
    acknowledges.  A transmission sets the register pointer; a request
    fills the receive buffer from that pointer on. *)
Record board : Type := mk_board {
  chips : Z -> Z -> option Z;
  tx_address : Z;
  tx_buffer : list Z;
  pointer : Z;
  rx_buffer : list Z;
  now : Z
}.

Fixpoint fetch (c : Z -> Z -> option Z) (address reg : Z) (n : nat) : list Z :=
  match n with
  | O => []
  | S n' =>
      match c address reg with
      | None => []
      | Some v => v :: fetch c address (reg + 1) n'
      end
  end.

Definition board_h : handler board := fun op w =>
  match op with
  | Wire_beginTransmission address =>
      (0, mk_board (chips w) address [] (pointer w) (rx_buffer w) (now w))
  | Wire_write data =>
      (1, mk_board (chips w) (tx_address w) (tx_buffer w ++ [data])
                   (pointer w) (rx_buffer w) (now w))
  | Wire_endTransmission =>
      match tx_buffer w with
      | reg :: _ =>
          match chips w (tx_address w) reg with
          | Some _ =>
              (0, mk_board (chips w) (tx_address w) [] reg (rx_buffer w) (now w))
          | None =>
              (2, mk_board (chips w) (tx_address w) [] (pointer w)
                           (rx_buffer w) (now w))
          end
      | [] => (0, w)
      end
  | Wire_requestFrom address quantity =>
      let got := fetch (chips w) address (pointer w) (Z.to_nat quantity) in
      (Z.of_nat (length got),
       mk_board (chips w) (tx_address w) (tx_buffer w) (pointer w) got (now w))
  | Wire_available => (Z.of_nat (length (rx_buffer w)), w)
  | Wire_read =>
      match rx_buffer w with
      | v :: rest =>
          (v, mk_board (chips w) (tx_address w) (tx_buffer w) (pointer w)
                       rest (now w))
      | [] => (-1, w)
      end
  | millis =>
      (now w, mk_board (chips w) (tx_address w) (tx_buffer w) (pointer w)
                       (rx_buffer w) (now w + 1))
  end.

Definition power_on (c : Z -> Z -> option Z) : board :=
  mk_board c 0 [] 0 [] 0.

(** The values the enumerators of [regAddr] have on the chips' register maps
    (ST datasheets of the LSM303DLH, DLM, DLHC and D), for running the driver
    on a bench bus. *)
Definition datasheet : regAddr := {|
  WHO_AM_I := 15;
  CTRL_REG1_A := 32;
  OUT_X_L_A := 40;
  TEMP_OUT_H_M := 49;
  TEMP_OUT_L_M := 50;
  OUT_X_H_M := -1; OUT_X_L_M := -2;
  OUT_Y_H_M := -3; OUT_Y_L_M := -4;
  OUT_Z_H_M := -5; OUT_Z_L_M := -6;
  DLH_OUT_X_H_M := 3; DLH_OUT_X_L_M := 4;
  DLH_OUT_Y_H_M := 5; DLH_OUT_Y_L_M := 6;
  DLH_OUT_Z_H_M := 7; DLH_OUT_Z_L_M := 8;
  DLM_OUT_X_H_M := 3; DLM_OUT_X_L_M := 4;
  DLM_OUT_Z_H_M := 5; DLM_OUT_Z_L_M := 6;
  DLM_OUT_Y_H_M := 7; DLM_OUT_Y_L_M := 8;
  DLHC_OUT_X_H_M := 3; DLHC_OUT_X_L_M := 4;
  DLHC_OUT_Z_H_M := 5; DLHC_OUT_Z_L_M := 6;
  DLHC_OUT_Y_H_M := 7; DLHC_OUT_Y_L_M := 8;
  D_OUT_X_L_M := 8; D_OUT_X_H_M := 9;
  D_OUT_Y_L_M := 10; D_OUT_Y_H_M := 11;
  D_OUT_Z_L_M := 12; D_OUT_Z_H_M := 13
|}.

(** An LSM303D alone on the bus, answering at [address]. *)
Definition lsm303d_at (address : Z) : Z -> Z -> option Z := fun adr reg =>
  if adr =? address then
    if reg =? 15 then Some D_WHO_ID else Some 0
  else None.

(** An LSM303DLH, DLM or DLHC: accelerometer at [acc] with 0x27 in its
    CTRL_REG1_A, magnetometer at 0011110b with 0x10 in its CRA_REG_M. *)
Definition lsm303dlh_at (acc : Z) : Z -> Z -> option Z := fun adr reg =>
  if adr =? acc then Some (if reg =? 32 then 39 else 0)
  else if adr =? NON_D_MAG_ADDRESS then Some (if reg =? 0 then 16 else 0)
  else None.

(** Object storage before construction: every member zero. *)
Definition blank : LSM303 :=
  mkLSM303 (vector.mk 0 0 0) (vector.mk 0 0 0) (vector.mk 0 0 0)
    (vector.mk 0 0 0) 0 device_DLH 0 0 0 0 0 0 0 0 0 false.

(** ** What the polling loop sees *)

Section Polling.
Variables (bits timeout start : Z) (avail clock : nat -> Z).

(** At the [k]-th poll a timeout is configured and the time elapsed since
    [start] exceeds it. *)
Definition expired (k : nat) : bool :=
  (0 <? timeout) && (to_uint bits (to_uint bits (clock k) - start) >? timeout).

(** Fewer than six bytes are available at every poll up to the [n]-th, where
    the timeout has elapsed for the first time. *)
Definition starved (n : nat) : Prop :=
  (forall k, (k <= n)%nat -> avail k < 6) /\
  (forall k, (k < n)%nat -> expired k = false) /\
  expired n = true.

(** Six bytes are available at the [n]-th poll, and at no earlier poll had
    the timeout elapsed. *)
Definition delivered (n : nat) : Prop :=
  (forall k, (k < n)%nat -> avail k < 6 /\ expired k = false) /\
  6 <= avail n.

End Polling.

(** The same for a read method entered in state [s] on the scripted bus [w]:
    the first [millis()] gives the start time, the later ones the clock of
    the polls. *)
Definition read_starved (bits : Z) (s : LSM303) (w : wire) (n : nat) : Prop :=
  starved bits (io_timeout s) (to_uint bits (on_millis w O))
          (on_available w) (next (on_millis w)) n.

Definition read_delivered (bits : Z) (s : LSM303) (w : wire) (n : nat) : Prop :=
  delivered bits (io_timeout s) (to_uint bits (on_millis w O))
            (on_available w) (next (on_millis w)) n.

(** What [readAcc] stores in [a] (lines 347-367) when its six [Wire.read()]
    calls return [rx 0], ..., [rx 5]. *)
Definition acc_sample (device : deviceType) (rx : nat -> Z) : vector.t :=
  let ax := combine (to_byte (rx 1%nat)) (to_byte (rx 0%nat)) in
  let ay := combine (to_byte (rx 3%nat)) (to_byte (rx 2%nat)) in
  let az := combine (to_byte (rx 5%nat)) (to_byte (rx 4%nat)) in
  if negb (deviceType_eqb device device_D)
  then vector.mk (shift4 ax) (shift4 ay) (shift4 az)
  else vector.mk ax ay az.

(** What [readMag] stores in [m] (lines 390-429) when its six [Wire.read()]
    calls return [rx 0], ..., [rx 5]. *)
Definition mag_sample (device : deviceType) (rx : nat -> Z) : vector.t :=
  let b k := to_byte (rx k) in
  if deviceType_eqb device device_D then
    vector.mk (combine (b 1%nat) (b 0%nat)) (combine (b 3%nat) (b 2%nat))
              (combine (b 5%nat) (b 4%nat))
  else if deviceType_eqb device device_DLH then
    vector.mk (combine (b 0%nat) (b 1%nat)) (combine (b 2%nat) (b 3%nat))
              (combine (b 4%nat) (b 5%nat))
  else
    vector.mk (combine (b 0%nat) (b 1%nat)) (combine (b 4%nat) (b 5%nat))
              (combine (b 2%nat) (b 3%nat)).

(** The driver state with which the polling loop of a read method is
    entered, [status] being the answer of [Wire.endTransmission()]. *)
Definition polling (status : Z) (s : LSM303) : LSM303 :=
  set_did_timeout false (set_last_status (to_byte status) s).

(** The signed 16-bit value whose high byte is [hi] and low byte is [lo]. *)
Definition int16_of_bytes (hi lo : Z) : Z := to_int16 (256 * hi + lo).

(** ** Further methods *)

(** Further enumerators of [regAddr] (LSM303.h, not among the sources):
    those [enableDefault] writes to. *)
Record ctrlAddr : Type := {
  CTRL1 : Z;
  CTRL5 : Z;
  CTRL7 : Z;
  CTRL_REG4_A : Z;
  MR_REG_M : Z
}.

Section Enable.
Variable H : regAddr.
Variable C : ctrlAddr.

(** [LSM303::enableDefault]. *)
Definition enableDefault (s : LSM303) : prog (unit * LSM303) :=
  if deviceType_eqb (_device s) device_D then
    '(_, s) <- writeAccReg (CTRL1 C) 87 s ;;
    '(_, s) <- writeMagReg (CTRL7 C) 0 s ;;
    writeMagReg (CTRL5 C) 112 s
  else
    '(_, s) <- writeAccReg (CTRL_REG1_A H) 39 s ;;
    '(_, s) <- (if deviceType_eqb (_device s) device_DLHC
                then writeAccReg (CTRL_REG4_A C) 8 s
                else Ret (tt, s)) ;;
    writeMagReg (MR_REG_M C) 0 s.

End Enable.

(** The values of these enumerators on the chips' register maps. *)
Definition datasheet_ctrl : ctrlAddr := {|
  CTRL1 := 32;
  CTRL5 := 36;
  CTRL7 := 38;
  CTRL_REG4_A := 35;
  MR_REG_M := 2
|}.

(** [vector_cross] (lines 480-485) as [heading] calls it at line 469, with
    [Ta = int32_t] and [Tb = int16_t]: the three expressions in [int32_t]
    arithmetic, before their conversion to the [float] components of [out]. *)
Definition vector_cross (u v : vector.t) : vector.t :=
  let mul (p q : Z) := to_int32 (to_int32 p * to_int32 q) in
  vector.mk
    (to_int32 (mul (vector.y u) (vector.z v) - mul (vector.z u) (vector.y v)))
    (to_int32 (mul (vector.z u) (vector.x v) - mul (vector.x u) (vector.z v)))
    (to_int32 (mul (vector.x u) (vector.y v) - mul (vector.y u) (vector.x v))).

(** The cross product over the integers. *)
Definition cross (u v : vector.t) : vector.t :=
  vector.mk
    (vector.y u * vector.z v - vector.z u * vector.y v)
    (vector.z u * vector.x v - vector.x u * vector.z v)
    (vector.x u * vector.y v - vector.y u * vector.x v).

(** Every product and every difference of the cross product fits
    [int32_t]. *)
Definition cross_fits (u v : vector.t) : Prop :=
  (is_int32 (vector.y u * vector.z v) /\ is_int32 (vector.z u * vector.y v)
   /\ is_int32 (vector.z u * vector.x v) /\ is_int32 (vector.x u * vector.z v)
   /\ is_int32 (vector.x u * vector.y v) /\ is_int32 (vector.y u * vector.x v))
  /\ is_int32 (vector.x (cross u v))
  /\ is_int32 (vector.y (cross u v))
  /\ is_int32 (vector.z (cross u v)).

(** A 12-bit sample, as the accelerometers other than the D's give. *)
Definition is_int12 (v : Z) : Prop := -2048 <= v <= 2047.

Definition int12_vector (v : vector.t) : Prop :=
  is_int12 (vector.x v) /\ is_int12 (vector.y v) /\ is_int12 (vector.z v).

(** ** Vocabulary of the further properties *)

(** The samples, the calibration and the timeout members are those of [s]. *)
Definition same_data (s s' : LSM303) : Prop :=
  a s' = a s /\ m s' = m s /\ m_max s' = m_max s /\ m_min s' = m_min s
  /\ io_timeout s' = io_timeout s /\ did_timeout s' = did_timeout s.

(** The device type, the addresses and the translated registers are those
    of [s]. *)
Definition same_setup (s s' : LSM303) : Prop :=
  _device s' = _device s
  /\ acc_address s' = acc_address s /\ mag_address s' = mag_address s
  /\ out_x_h_m s' = out_x_h_m s /\ out_x_l_m s' = out_x_l_m s
  /\ out_y_h_m s' = out_y_h_m s /\ out_y_l_m s' = out_y_l_m s
  /\ out_z_h_m s' = out_z_h_m s /\ out_z_l_m s' = out_z_l_m s.

(** The six dummy register addresses with the member [init] stores the
    translated address in. *)
Definition dummy_table (H : regAddr) (s : LSM303) : list (Z * Z) :=
  [ (OUT_X_H_M H, out_x_h_m s); (OUT_X_L_M H, out_x_l_m s);
    (OUT_Y_H_M H, out_y_h_m s); (OUT_Y_L_M H, out_y_l_m s);
    (OUT_Z_H_M H, out_z_h_m s); (OUT_Z_L_M H, out_z_l_m s) ].

(** The dummy addresses are negative and differ from one another. *)
Definition dummies_well_formed (H : regAddr) : Prop :=
  NoDup [OUT_X_H_M H; OUT_X_L_M H; OUT_Y_H_M H; OUT_Y_L_M H;
         OUT_Z_H_M H; OUT_Z_L_M H]
  /\ Forall (fun reg => reg < 0)
       [OUT_X_H_M H; OUT_X_L_M H; OUT_Y_H_M H; OUT_Y_L_M H;
        OUT_Z_H_M H; OUT_Z_L_M H].

(** The low and the high byte of a 16-bit two's complement value. *)
Definition low_byte (v : Z) : Z := v mod 256.
Definition high_byte (v : Z) : Z := (v / 256) mod 256.

(** A receive buffer holding the bytes [l]. *)
Definition buffer (l : list Z) : nat -> Z := fun k => nth k l 0.

(** The six bytes a device puts on the bus for the reading ([vx], [vy],
    [vz]): low byte first and X, Y, Z on the accelerometers and on the D's
    magnetometer; high byte first on the other magnetometers, X, Y, Z on the
    DLH and X, Z, Y on the DLM and DLHC. *)
Definition little_endian_xyz (vx vy vz : Z) : list Z :=
  [low_byte vx; high_byte vx; low_byte vy; high_byte vy;
   low_byte vz; high_byte vz].

Definition mag_bytes (device : deviceType) (vx vy vz : Z) : list Z :=
  match device with
  | device_D => little_endian_xyz vx vy vz
  | device_DLH =>
      [high_byte vx; low_byte vx; high_byte vy; low_byte vy;
       high_byte vz; low_byte vz]
  | _ =>
      [high_byte vx; low_byte vx; high_byte vz; low_byte vz;
       high_byte vy; low_byte vy]
  end.

(** The addresses bytes were requested from, in the order of the calls. *)
Fixpoint asked (cs : list WireOp) : list Z :=
  match cs with
  | [] => []
  | Wire_requestFrom address _ :: rest => address :: asked rest
  | _ :: rest => asked rest
  end.

(** * Properties *)

(** ** Running programs *)

Section RunFacts.
Context {W : Type} (h : handler W).

Lemma exec_bind {R S : Type} (p : prog R) (f : R -> prog S) (w : W) :
  exec h (bind p f) w =
  match exec h p w with
  | Some (r, w') => exec h (f r) w'
  | None => None
  end.
Proof.
  revert w; induction p as [r | op k IH | ]; intros w; simpl.
  - reflexivity.
  - destruct (h op w) as [v w']. apply IH.
  - reflexivity.
Qed.

Lemma calls_bind {R S : Type} (p : prog R) (f : R -> prog S) (w : W) :
  calls h (bind p f) w =
  calls h p w ++
  match exec h p w with
  | Some (r, w') => calls h (f r) w'
  | None => []
  end.
Proof.
  revert w; induction p as [r | op k IH | ]; intros w; simpl.
  - reflexivity.
  - destruct (h op w) as [v w']. simpl. f_equal. apply IH.
  - reflexivity.
Qed.

Lemma replay_responses {R : Type} (p : prog R) (w : W) :
  replay p (responses h p w) = result h p w.
Proof.
  unfold result.
  revert w; induction p as [r | op k IH | ]; intros w; simpl.
  - reflexivity.
  - destruct (h op w) as [v w']. apply IH.
  - reflexivity.
Qed.

End RunFacts.

(** Two buses that give the same answers give the same result. *)
Lemma responses_determine {W1 W2 R : Type} (h1 : handler W1) (h2 : handler W2)
      (p : prog R) (w1 : W1) (w2 : W2) :
  responses h1 p w1 = responses h2 p w2 -> result h1 p w1 = result h2 p w2.
Proof.
  intros E. rewrite <- (replay_responses h1), <- (replay_responses h2).
  now rewrite E.
Qed.

(** Settles [run = ?value] by running the left-hand side. *)
Ltac by_running :=
  match goal with
  | |- ?lhs = _ =>
      let v := eval vm_compute in lhs in
      transitivity v; [vm_compute; reflexivity | reflexivity]
  end.

(** ** Initialisation *)

Section InitFacts.
Variable H : regAddr.
Context {W : Type} (h : handler W).

(** [init] returns [false] exactly when detection gave up, and otherwise
    reaches the end of the function with the addresses stored. *)
Lemma init_of_resolve device sa0 s w :
  exec h (init H device sa0 s) w =
  match exec h (init_resolve H device sa0 s) w with
  | Some ((Some (d, sa), s'), w') => Some ((None, init_addresses H d sa s'), w')
  | Some ((None, s'), w') => Some ((Some false, s'), w')
  | None => None
  end.
Proof.
  unfold init. rewrite exec_bind.
  destruct (exec h (init_resolve H device sa0 s) w) as [[[[[d sa]|] s'] w']|];
    reflexivity.
Qed.

(** The identification byte of the D at the strap-high address settles
    detection at once. *)
Lemma resolve_auto_D_high sa0 s w s1 w1 :
  exec h (testReg D_SA0_HIGH_ADDRESS (WHO_AM_I H) s) w
    = Some ((D_WHO_ID, s1), w1) ->
  exec h (init_resolve H device_auto sa0 s) w
    = Some ((Some (device_D, sa0_high), s1), w1).
Proof.
  intros E. unfold init_resolve, init_device.
  rewrite !exec_bind, E. reflexivity.
Qed.

(** No answer at either unified address and an answer of the accelerometer
    at its strap-high address: a DLHC is guessed. *)
Lemma resolve_auto_DLHC sa0 s w s1 w1 s2 w2 r s3 w3 :
  exec h (testReg D_SA0_HIGH_ADDRESS (WHO_AM_I H) s) w
    = Some ((TEST_REG_NACK, s1), w1) ->
  exec h (testReg D_SA0_LOW_ADDRESS (WHO_AM_I H) s1) w1
    = Some ((TEST_REG_NACK, s2), w2) ->
  exec h (testReg NON_D_ACC_SA0_HIGH_ADDRESS (CTRL_REG1_A H) s2) w2
    = Some ((r, s3), w3) ->
  r <> TEST_REG_NACK ->
  exec h (init_resolve H device_auto sa0 s) w
    = Some ((Some (device_DLHC, sa0_high), s3), w3).
Proof.
  intros E1 E2 E3 Hr. unfold init_resolve, init_device.
  rewrite !exec_bind, E1. cbn -[testReg].
  rewrite !exec_bind, E2. cbn -[testReg].
  rewrite !exec_bind, E3. cbn -[testReg].
  apply Z.eqb_neq in Hr. rewrite Hr. reflexivity.
Qed.

(** With the strap left open on a DLM or DLH, the configuration register is
    asked at the accelerometer's strap-high and then strap-low address; no
    answer at either makes [init] return [false]. *)
Lemma init_non_D_sa0_auto_fails device s w s1 w1 s2 w2 :
  device = device_DLM \/ device = device_DLH ->
  exec h (testReg NON_D_ACC_SA0_HIGH_ADDRESS (CTRL_REG1_A H) s) w
    = Some ((TEST_REG_NACK, s1), w1) ->
  exec h (testReg NON_D_ACC_SA0_LOW_ADDRESS (CTRL_REG1_A H) s1) w1
    = Some ((TEST_REG_NACK, s2), w2) ->
  exec h (init H device sa0_auto s) w = Some ((Some false, s2), w2).
Proof.
  intros D E1 E2. rewrite init_of_resolve. unfold init_resolve.
  assert (exec h (init_sa0 H device sa0_auto s) w = Some ((None, s2), w2)) as E.
  { destruct D; subst device; unfold init_sa0;
      rewrite !exec_bind, E1; cbn -[testReg];
      rewrite !exec_bind, E2; reflexivity. }
  destruct D; subst device; cbn -[init_sa0]; rewrite exec_bind, E; reflexivity.
Qed.

(** X5.  With the strap left open on a D, the identification register is
    asked twice at the strap-high address and nowhere else. *)
Lemma init_D_sa0_auto_calls s w :
  forall op, In op (calls h (init H device_D sa0_auto s) w) ->
    forall address, op = Wire_beginTransmission address
                    \/ op = Wire_requestFrom address 1 ->
    address = D_SA0_HIGH_ADDRESS.
Proof.
  unfold init, init_resolve, init_device, init_sa0, testReg.
  cbn [bind call calls].
  repeat match goal with
         | |- context [h ?op ?w0] =>
             let v := fresh "v" in
             let w1 := fresh "w" in
             destruct (h op w0) as [v w1]; cbn [bind call calls]
         | |- context [if ?c then _ else _] => destruct c; cbn [bind call calls]
         end;
    intros op Hin address Hop; cbn [In] in Hin;
    repeat match goal with
           | Hor : _ \/ _ |- _ => destruct Hor
           | Hf : False |- _ => destruct Hf
           end; subst; try discriminate;
    match goal with
    | E : _ = _ |- _ => now inversion E
    end.
Qed.

End InitFacts.

(** C5.  Detection with [device_auto] is a function of the answers of the
    bus: two buses that answer the calls of [init] alike leave the same result
    and the same driver state, and replaying the list of answers alone gives
    that result.  If the identification register read at the
    unified strap-high address gives the D's identification byte 0x49, [init]
    resolves to ([device_D], [sa0_high]) and stores the strap-high address for
    both sub-devices.  If the reads at both unified addresses get no answer
    and the configuration register read at the accelerometer's strap-high
    address gets one, [init] resolves to ([device_DLHC], [sa0_high]) and
    stores the strap-high accelerometer address. *)
Theorem init_auto_is_determined_by_the_answers
        (H : regAddr) (sa0 : sa0State) (s : LSM303) :
  (forall (W1 W2 : Type) (h1 : handler W1) (h2 : handler W2) w1 w2,
      responses h1 (init H device_auto sa0 s) w1
        = responses h2 (init H device_auto sa0 s) w2 ->
      result h1 (init H device_auto sa0 s) w1
        = result h2 (init H device_auto sa0 s) w2)
  /\
  (forall (W : Type) (h : handler W) w,
      replay (init H device_auto sa0 s)
             (responses h (init H device_auto sa0 s) w)
      = result h (init H device_auto sa0 s) w)
  /\
  (forall (W : Type) (h : handler W) w s1 w1,
      exec h (testReg D_SA0_HIGH_ADDRESS (WHO_AM_I H) s) w
        = Some ((D_WHO_ID, s1), w1) ->
      exec h (init_resolve H device_auto sa0 s) w
        = Some ((Some (device_D, sa0_high), s1), w1)
      /\ exists ret s',
          exec h (init H device_auto sa0 s) w = Some ((ret, s'), w1)
          /\ ret <> Some false
          /\ _device s' = device_D
          /\ acc_address s' = D_SA0_HIGH_ADDRESS
          /\ mag_address s' = D_SA0_HIGH_ADDRESS)
  /\
  (forall (W : Type) (h : handler W) w s1 w1 s2 w2 r s3 w3,
      exec h (testReg D_SA0_HIGH_ADDRESS (WHO_AM_I H) s) w
        = Some ((TEST_REG_NACK, s1), w1) ->
      exec h (testReg D_SA0_LOW_ADDRESS (WHO_AM_I H) s1) w1
        = Some ((TEST_REG_NACK, s2), w2) ->
      exec h (testReg NON_D_ACC_SA0_HIGH_ADDRESS (CTRL_REG1_A H) s2) w2
        = Some ((r, s3), w3) ->
      r <> TEST_REG_NACK ->
      exec h (init_resolve H device_auto sa0 s) w
        = Some ((Some (device_DLHC, sa0_high), s3), w3)
      /\ exists ret s',
          exec h (init H device_auto sa0 s) w = Some ((ret, s'), w3)
          /\ ret <> Some false
          /\ _device s' = device_DLHC
          /\ acc_address s' = NON_D_ACC_SA0_HIGH_ADDRESS
          /\ mag_address s' = NON_D_MAG_ADDRESS).
Proof.
  split; [| split; [| split]].
  - intros W1 W2 h1 h2 w1 w2. apply responses_determine.
  - intros W h w. apply replay_responses.
  - intros W h w s1 w1 E.
    pose proof (resolve_auto_D_high H h sa0 s w s1 w1 E) as R.
    split; [exact R |].
    exists None, (init_addresses H device_D sa0_high s1).
    rewrite init_of_resolve, R. repeat split. discriminate.
  - intros W h w s1 w1 s2 w2 r s3 w3 E1 E2 E3 Hr.
    pose proof (resolve_auto_DLHC H h sa0 s w s1 w1 s2 w2 r s3 w3 E1 E2 E3 Hr)
      as R.
    split; [exact R |].
    exists None, (init_addresses H device_DLHC sa0_high s3).
    rewrite init_of_resolve, R. repeat split. discriminate.
Qed.

(** A D strapped high, beside a bus that answers like it on the calls of
    [init] only; an accelerometer alone at its strap-high address. *)
Lemma init_auto_is_determined_by_the_answers_witness :
  result board_h (init datasheet device_auto sa0_auto (LSM303_LSM303 blank))
         (power_on (lsm303d_at D_SA0_HIGH_ADDRESS))
  = result board_h (init datasheet device_auto sa0_auto (LSM303_LSM303 blank))
           (power_on (fun adr _ => if adr =? 29 then Some 73 else None))
  /\ option_map (fun r => fst (fst r))
       (exec board_h
          (init_resolve datasheet device_auto sa0_auto (LSM303_LSM303 blank))
          (power_on (lsm303d_at D_SA0_HIGH_ADDRESS)))
     = Some (Some (device_D, sa0_high))
  /\ option_map (fun r => fst (fst r))
       (exec board_h
          (init_resolve datasheet device_auto sa0_auto (LSM303_LSM303 blank))
          (power_on (fun adr _ => if adr =? 25 then Some 39 else None)))
     = Some (Some (device_DLHC, sa0_high)).
Proof.
  destruct (init_auto_is_determined_by_the_answers
              datasheet sa0_auto (LSM303_LSM303 blank))
    as [Hdet [_ [HD HDLHC]]].
  split; [| split].
  - apply Hdet. vm_compute. reflexivity.
  - edestruct (HD board board_h (power_on (lsm303d_at D_SA0_HIGH_ADDRESS)))
      as [E _].
    + by_running.
    + rewrite E. reflexivity.
  - edestruct (HDLHC board board_h
                     (power_on (fun adr _ => if adr =? 25 then Some 39 else None)))
      as [E _].
    + by_running.
    + by_running.
    + by_running.
    + vm_compute. discriminate.
    + rewrite E. reflexivity.
Defined.

(** C4.  [init (device_D, sa0_auto)] on a bus whose only chip is an LSM303D
    strapped low: both probes of the identification register go to the
    strap-high address 0011101b (lines 106 and 110), the strap-low address
    0011110b is never asked, and [init] returns [false] although a probe of
    the strap-low address finds the chip. *)
Theorem init_D_sa0_auto_never_asks_strap_low :
  let run := init datasheet device_D sa0_auto (LSM303_LSM303 blank) in
  let bus := power_on (lsm303d_at D_SA0_LOW_ADDRESS) in
  option_map fst (result board_h run bus) = Some (Some false)
  /\ calls board_h run bus
     = [Wire_beginTransmission D_SA0_HIGH_ADDRESS; Wire_write 15;
        Wire_endTransmission; Wire_requestFrom D_SA0_HIGH_ADDRESS 1;
        Wire_available;
        Wire_beginTransmission D_SA0_HIGH_ADDRESS; Wire_write 15;
        Wire_endTransmission; Wire_requestFrom D_SA0_HIGH_ADDRESS 1;
        Wire_available]
  /\ option_map fst
       (result board_h
          (testReg D_SA0_LOW_ADDRESS (WHO_AM_I datasheet) (LSM303_LSM303 blank))
          bus)
     = Some D_WHO_ID.
Proof.
  cbv zeta. repeat split.
Qed.

(** C7.  When detection succeeds, [init] reaches the end of its body without
    a [return] statement: the [bool] it hands back has no value.  So it is
    for an explicitly given device (no bus traffic at all) and for a D found
    by detection. *)
Theorem init_success_returns_no_value :
  (forall (H : regAddr) (W : Type) (h : handler W) (w : W) (s : LSM303),
      result h (init H device_DLHC sa0_high s) w
      = Some (None, init_addresses H device_DLHC sa0_high s))
  /\ option_map fst
       (result board_h
          (init datasheet device_auto sa0_auto (LSM303_LSM303 blank))
          (power_on (lsm303d_at D_SA0_HIGH_ADDRESS)))
     = Some None.
Proof.
  split.
  - intros. reflexivity.
  - reflexivity.
Qed.

(** ** The polling loop *)

Section PollingFacts.
Variables (bits timeout start : Z).

Lemma expired_disabled clock k :
  (0 <? timeout) = false -> expired bits timeout start clock k = false.
Proof. intros E. unfold expired. now rewrite E. Qed.

Lemma delivered_S avail clock clock' n :
  avail O < 6 ->
  expired bits timeout start clock O = false ->
  (forall k, expired bits timeout start clock' k
             = expired bits timeout start clock (S k)) ->
  delivered bits timeout start (next avail) clock' n ->
  delivered bits timeout start avail clock (S n).
Proof.
  intros Ha He Hc [Hlt Hn]. split; [| exact Hn].
  intros [| k] Hk.
  - now split.
  - destruct (Hlt k ltac:(lia)) as [A B]. split; [exact A |].
    now rewrite <- Hc.
Qed.

Lemma starved_S avail clock clock' n :
  avail O < 6 ->
  expired bits timeout start clock O = false ->
  (forall k, expired bits timeout start clock' k
             = expired bits timeout start clock (S k)) ->
  starved bits timeout start (next avail) clock' n ->
  starved bits timeout start avail clock (S n).
Proof.
  intros Ha He Hc (Hav & Hex & Hn). repeat split.
  - intros [| k] Hk; [exact Ha | apply (Hav k); lia].
  - intros [| k] Hk; [exact He |]. rewrite <- Hc. apply Hex. lia.
  - now rewrite <- Hc.
Qed.

(** The two ways out of the loop exclude each other. *)
Lemma starved_not_delivered avail clock n n' :
  starved bits timeout start avail clock n ->
  delivered bits timeout start avail clock n' -> False.
Proof.
  intros (Hav & Hex & Hn) (Hlt & Hn').
  destruct (Nat.lt_ge_cases n n') as [L | L].
  - destruct (Hlt n L) as [_ B]. congruence.
  - specialize (Hav n' L). lia.
Qed.

End PollingFacts.

Section ReadFacts.
Variable H : regAddr.
Variable bits : Z.

(** Every way the loop can go on the scripted bus, by the polls it saw. *)
Lemma wait_available_exec fuel start s w :
  match exec wire_h (wait_available bits fuel start s) w with
  | Some ((ready, s'), w') =>
      on_read w' = on_read w /\
      exists n, (n < fuel)%nat /\
        if ready : bool
        then s' = s /\
             delivered bits (io_timeout s) start (on_available w) (on_millis w) n
        else s' = set_did_timeout true s /\
             starved bits (io_timeout s) start (on_available w) (on_millis w) n
  | None =>
      forall k, (k < fuel)%nat ->
        on_available w k < 6 /\
        expired bits (io_timeout s) start (on_millis w) k = false
  end.
Proof.
  revert w; induction fuel as [| fuel IH]; intros w.
  - simpl. intros k Hk. lia.
  - cbn [wait_available]. rewrite exec_bind. cbn [call exec wire_h].
    destruct (on_available w O <? 6) eqn:Ea.
    + apply Z.ltb_lt in Ea.
      destruct (0 <? io_timeout s) eqn:Et.
      * rewrite exec_bind. cbn [call exec wire_h on_millis on_available].
        destruct (to_uint bits (to_uint bits (on_millis w O) - start)
                  >? io_timeout s) eqn:Ex.
        -- cbn [exec on_read]. split; [reflexivity |].
           exists O. split; [lia |]. split; [reflexivity |].
           repeat split.
           ++ intros k Hk. replace k with O by lia. exact Ea.
           ++ intros k Hk. lia.
           ++ unfold expired. now rewrite Et, Ex.
        -- assert (He : expired bits (io_timeout s) start (on_millis w) O = false)
             by (unfold expired; now rewrite Et, Ex).
           match goal with
           | |- match exec _ _ ?w2 with _ => _ end =>
               specialize (IH w2); destruct (exec wire_h _ w2)
                 as [[[ready s'] w'] |]
           end; cbn [on_read on_available on_millis] in IH.
           ++ destruct IH as [Hr (n & Hn & Hc)]. split; [exact Hr |].
              exists (S n). split; [lia |].
              destruct ready; destruct Hc as [Hs Hc]; (split; [exact Hs |]).
              ** eapply delivered_S; eauto. reflexivity.
              ** eapply starved_S; eauto. reflexivity.
           ++ intros [| k] Hk; [now split |]. apply (IH k). lia.
      * assert (He : forall c k, expired bits (io_timeout s) start c k = false)
          by (intros; now apply expired_disabled).
        match goal with
        | |- match exec _ _ ?w2 with _ => _ end =>
            specialize (IH w2); destruct (exec wire_h _ w2)
              as [[[ready s'] w'] |]
        end; cbn [on_read on_available on_millis] in IH.
        -- destruct IH as [Hr (n & Hn & Hc)]. split; [exact Hr |].
           exists (S n). split; [lia |].
           destruct ready; destruct Hc as [Hs Hc]; (split; [exact Hs |]).
           ** eapply delivered_S; eauto; intros; now rewrite !He.
           ** eapply starved_S; eauto; intros; now rewrite !He.
        -- intros [| k] Hk; [now split |].
           split; [apply (IH k); lia | apply He].
    + apply Z.ltb_ge in Ea. cbn [exec]. split; [reflexivity |].
      exists O. split; [lia |]. split; [reflexivity |].
      split; [intros k Hk; lia | exact Ea].
Qed.

(** Unfolds a read method up to its polling loop and splits on the ways the
    loop can go. *)
Ltac enter_polling_loop :=
  unfold result;
  cbn [bind call exec wire_h on_endTransmission on_available on_read on_millis];
  rewrite exec_bind;
  match goal with
  | |- context [exec wire_h (wait_available bits ?fuel ?st ?s1) ?w1] =>
      let P := fresh "P" in
      pose proof (wait_available_exec fuel st s1 w1) as P;
      destruct (exec wire_h (wait_available bits fuel st s1) w1)
        as [[[[|] ?s'] ?w'] |];
      cbn [on_read on_available on_millis] in P
  end.

Lemma readAcc_exec fuel s w :
  match result wire_h (readAcc H bits fuel s) w with
  | Some (_, s') =>
      exists n, (n < fuel)%nat /\
        ((read_delivered bits s w n /\
          s' = set_a (acc_sample (_device s) (on_read w))
                     (polling (on_endTransmission w O) s))
         \/ (read_starved bits s w n /\
             s' = set_did_timeout true (polling (on_endTransmission w O) s)))
  | None =>
      forall k, (k < fuel)%nat ->
        on_available w k < 6 /\
        expired bits (io_timeout s) (to_uint bits (on_millis w O))
                (next (on_millis w)) k = false
  end.
Proof.
  unfold readAcc. enter_polling_loop.
  - destruct P as [Hr (n & Hn & Hs & Hc)]; subst.
    cbn [exec wire_h on_read]. unfold next. rewrite Hr.
    unfold acc_sample, polling. cbn [_device set_did_timeout set_last_status].
    destruct (negb (deviceType_eqb (_device s) device_D));
      cbn [exec option_map fst];
      (exists n; split; [exact Hn |]; left; split; [exact Hc | reflexivity]).
  - destruct P as [Hr (n & Hn & Hs & Hc)]; subst.
    cbn [exec option_map fst].
    exists n. split; [exact Hn |]. right. split; [exact Hc | reflexivity].
  - exact P.
Qed.

Lemma readMag_exec fuel s w :
  match result wire_h (readMag bits fuel s) w with
  | Some (_, s') =>
      exists n, (n < fuel)%nat /\
        ((read_delivered bits s w n /\
          s' = set_m (mag_sample (_device s) (on_read w))
                     (polling (on_endTransmission w O) s))
         \/ (read_starved bits s w n /\
             s' = set_did_timeout true (polling (on_endTransmission w O) s)))
  | None =>
      forall k, (k < fuel)%nat ->
        on_available w k < 6 /\
        expired bits (io_timeout s) (to_uint bits (on_millis w O))
                (next (on_millis w)) k = false
  end.
Proof.
  unfold readMag. enter_polling_loop.
  - destruct P as [Hr (n & Hn & Hs & Hc)]; subst.
    unfold mag_sample, polling. cbn [_device set_did_timeout set_last_status].
    rewrite <- Hr.
    destruct (_device s);
      cbn [deviceType_eqb bind call exec wire_h on_read option_map fst];
      (exists n; split; [exact Hn |]; left; split; [exact Hc | reflexivity]).
  - destruct P as [Hr (n & Hn & Hs & Hc)]; subst.
    cbn [exec option_map fst].
    exists n. split; [exact Hn |]. right. split; [exact Hc | reflexivity].
  - exact P.
Qed.

(** A loop still polling after [fuel] iterations has seen neither six bytes
    nor the timeout. *)
Lemma not_still_polling fuel s w n :
  (n < fuel)%nat ->
  read_delivered bits s w n \/ read_starved bits s w n ->
  (forall k, (k < fuel)%nat ->
     on_available w k < 6 /\
     expired bits (io_timeout s) (to_uint bits (on_millis w O))
             (next (on_millis w)) k = false) ->
  False.
Proof.
  intros Hn [[_ Hd] | (_ & _ & Hs)] Hall; destruct (Hall n Hn) as [A B].
  - lia.
  - congruence.
Qed.

(** From the characterisation of a read method to its result under a given
    course of the polls. *)
Ltac by_polls E :=
  match type of E with
  | match ?r with _ => _ end =>
      destruct r as [[[] ?s'] |];
      [ destruct E as (?n' & _ & [[? ->] | [? ->]]);
        [ try reflexivity | try reflexivity ]
      | exfalso; eapply not_still_polling; eauto ]
  end.

Lemma readAcc_starved fuel s w n :
  read_starved bits s w n -> (n < fuel)%nat ->
  result wire_h (readAcc H bits fuel s) w
  = Some (tt, set_did_timeout true (polling (on_endTransmission w O) s)).
Proof.
  intros Hs Hn. pose proof (readAcc_exec fuel s w) as E. by_polls E.
  exfalso. eapply starved_not_delivered; eauto.
Qed.

Lemma readAcc_delivered fuel s w n :
  read_delivered bits s w n -> (n < fuel)%nat ->
  result wire_h (readAcc H bits fuel s) w
  = Some (tt, set_a (acc_sample (_device s) (on_read w))
                    (polling (on_endTransmission w O) s)).
Proof.
  intros Hd Hn. pose proof (readAcc_exec fuel s w) as E. by_polls E.
  exfalso. eapply starved_not_delivered; eauto.
Qed.

Lemma readMag_starved fuel s w n :
  read_starved bits s w n -> (n < fuel)%nat ->
  result wire_h (readMag bits fuel s) w
  = Some (tt, set_did_timeout true (polling (on_endTransmission w O) s)).
Proof.
  intros Hs Hn. pose proof (readMag_exec fuel s w) as E. by_polls E.
  exfalso. eapply starved_not_delivered; eauto.
Qed.

Lemma readMag_delivered fuel s w n :
  read_delivered bits s w n -> (n < fuel)%nat ->
  result wire_h (readMag bits fuel s) w
  = Some (tt, set_m (mag_sample (_device s) (on_read w))
                    (polling (on_endTransmission w O) s)).
Proof.
  intros Hd Hn. pose proof (readMag_exec fuel s w) as E. by_polls E.
  exfalso. eapply starved_not_delivered; eauto.
Qed.

End ReadFacts.

(** ** Sample reads *)

(** C1.  A read of the accelerometer or of the magnetometer is all or
    nothing.  If fewer than six bytes are available at every poll until the
    configured timeout has elapsed, the method returns with the sample vector
    ([a], resp. [m]) as it was before the call and the timeout flag set.  If
    six bytes become available first, it returns with the flag cleared and
    the vector replaced by a value that depends on the device type and the
    six bytes alone ([fresh_a], [fresh_m]): nothing of the old vector
    remains.  Whenever the method returns, one of the two has happened. *)
Theorem sample_read_is_all_or_nothing (H : regAddr) (bits : Z) :
  exists fresh_a fresh_m : deviceType -> (nat -> Z) -> vector.t,
  forall (s : LSM303) (w : wire),
    (forall n fuel, read_starved bits s w n -> (n < fuel)%nat ->
       (exists s', result wire_h (readAcc H bits fuel s) w = Some (tt, s')
                   /\ a s' = a s /\ did_timeout s' = true)
       /\
       (exists s', result wire_h (readMag bits fuel s) w = Some (tt, s')
                   /\ m s' = m s /\ did_timeout s' = true))
    /\
    (forall n fuel, read_delivered bits s w n -> (n < fuel)%nat ->
       (exists s', result wire_h (readAcc H bits fuel s) w = Some (tt, s')
                   /\ a s' = fresh_a (_device s) (on_read w)
                   /\ did_timeout s' = false)
       /\
       (exists s', result wire_h (readMag bits fuel s) w = Some (tt, s')
                   /\ m s' = fresh_m (_device s) (on_read w)
                   /\ did_timeout s' = false))
    /\
    (forall fuel s',
       result wire_h (readAcc H bits fuel s) w = Some (tt, s') ->
       (a s' = a s /\ did_timeout s' = true)
       \/ (a s' = fresh_a (_device s) (on_read w) /\ did_timeout s' = false))
    /\
    (forall fuel s',
       result wire_h (readMag bits fuel s) w = Some (tt, s') ->
       (m s' = m s /\ did_timeout s' = true)
       \/ (m s' = fresh_m (_device s) (on_read w) /\ did_timeout s' = false)).
Proof.
  exists acc_sample, mag_sample. intros s w. repeat split.
  - eexists. split; [eapply readAcc_starved; eassumption |]. now split.
  - eexists. split; [eapply readMag_starved; eassumption |]. now split.
  - eexists. split; [eapply readAcc_delivered; eassumption |]. now split.
  - eexists. split; [eapply readMag_delivered; eassumption |]. now split.
  - intros fuel s' E. pose proof (readAcc_exec H bits fuel s w) as X.
    rewrite E in X. destruct X as (n & _ & [[_ ->] | [_ ->]]).
    + right. now split.
    + left. now split.
  - intros fuel s' E. pose proof (readMag_exec bits fuel s w) as X.
    rewrite E in X. destruct X as (n & _ & [[_ ->] | [_ ->]]).
    + right. now split.
    + left. now split.
Qed.

(** A bus that never delivers and a clock that advances 100 ms per call,
    under a timeout of 10 ms; a bus that has six bytes at once. *)
Lemma sample_read_is_all_or_nothing_witness :
  let s := set_io_timeout 10 (LSM303_LSM303 blank) in
  let silent := mk_wire (fun _ => 0) (fun _ => 0) (fun _ => 0)
                        (fun k => 100 * Z.of_nat k) in
  let ready := mk_wire (fun _ => 0) (fun _ => 6) (fun k => Z.of_nat k)
                       (fun _ => 0) in
  (exists s', result wire_h (readAcc datasheet 16 1 s) silent = Some (tt, s')
              /\ a s' = a s /\ did_timeout s' = true)
  /\ (exists s', result wire_h (readMag 16 1 s) ready = Some (tt, s')
              /\ did_timeout s' = false).
Proof.
  intros s silent ready.
  destruct (sample_read_is_all_or_nothing datasheet 16) as (fa & fm & All).
  split.
  - destruct (All s silent) as (Starved & _).
    destruct (Starved O 1%nat) as [X _]; [| lia | exact X].
    split; [| split].
    + intros k Hk. reflexivity.
    + intros k Hk. lia.
    + reflexivity.
  - destruct (All s ready) as (_ & Delivered & _).
    destruct (Delivered O 1%nat) as [_ (s' & E & _ & F)].
    + split; [intros k Hk; lia | discriminate].
    + lia.
    + exists s'. now split.
Defined.

(** ** Decoding *)

Lemma to_byte_range v : is_byte (to_byte v).
Proof. unfold is_byte, to_byte. apply Z.mod_pos_bound. lia. Qed.

Lemma to_int16_range v : is_int16 (to_int16 v).
Proof.
  unfold is_int16, to_int16.
  pose proof (Z.mod_pos_bound (v + 32768) 65536 ltac:(lia)). lia.
Qed.

Lemma to_int16_small v : is_int16 v -> to_int16 v = v.
Proof.
  unfold is_int16, to_int16. intros Hv.
  rewrite Z.mod_small by lia. lia.
Qed.

Lemma to_int32_small v : is_int32 v -> to_int32 v = v.
Proof.
  unfold is_int32, to_int32. intros Hv.
  rewrite Z.mod_small by lia. lia.
Qed.

(** [h << 8 | l] on two bytes is [256 * h + l]: the bits do not overlap. *)
Lemma shift_or_bytes h l :
  is_byte h -> is_byte l -> Z.lor (Z.shiftl h 8) l = 256 * h + l.
Proof.
  unfold is_byte. intros Hh Hl.
  rewrite Z.shiftl_mul_pow2 by lia.
  assert (Z.land (h * 2 ^ 8) l = 0) as Hland.
  { apply Z.bits_inj'. intros n Hn.
    rewrite Z.land_spec, Z.bits_0.
    destruct (Z.lt_ge_cases n 8) as [Lt | Ge].
    - rewrite Z.mul_pow2_bits_low by lia. reflexivity.
    - destruct (Z.eq_dec l 0) as [-> | Nz].
      + rewrite Z.bits_0. apply andb_false_r.
      + assert (Z.log2 l < 8) as Hlog by (apply Z.log2_lt_pow2; lia).
        rewrite (Z.bits_above_log2 l n) by lia.
        apply andb_false_r. }
  rewrite <- Z.lxor_lor by exact Hland.
  rewrite <- Z.add_nocarry_lxor by exact Hland.
  change (2 ^ 8) with 256. lia.
Qed.

Lemma combine_bytes h l :
  combine (to_byte h) (to_byte l) = int16_of_bytes (to_byte h) (to_byte l).
Proof.
  unfold combine, int16_of_bytes.
  now rewrite shift_or_bytes by apply to_byte_range.
Qed.

(** [>>= 4] on an [int16_t] is division by 16 rounding down. *)
Lemma shift4_div v : is_int16 v -> shift4 v = v / 16.
Proof.
  unfold shift4, is_int16. intros Hv.
  rewrite Z.shiftr_div_pow2 by lia. change (2 ^ 4) with 16.
  apply to_int16_small. unfold is_int16.
  pose proof (Z.div_le_mono (-32768) v 16 ltac:(lia) ltac:(lia)) as Lo.
  pose proof (Z.div_le_mono v 32767 16 ltac:(lia) ltac:(lia)) as Hi.
  change (-32768 / 16) with (-2048) in Lo.
  change (32767 / 16) with 2047 in Hi. lia.
Qed.

(** C2.  After a completed six-byte burst (X_L, X_H, Y_L, Y_H, Z_L, Z_H)
    [readAcc] has stored in each component of [a] the signed 16-bit value of
    the axis's high and low byte; on a [device_D] as it is, on every other
    device divided by 16 rounding down, which is the arithmetic shift right
    by four: the low four bits are dropped, the sign is kept and the result
    lies in the 12-bit range. *)
Theorem readAcc_decodes_little_endian_and_shifts
        (H : regAddr) (bits : Z) (s : LSM303) (w : wire) (n fuel : nat) :
  read_delivered bits s w n -> (n < fuel)%nat ->
  exists s',
    result wire_h (readAcc H bits fuel s) w = Some (tt, s') /\
    let b k := to_byte (on_read w k) in
    let vx := int16_of_bytes (b 1%nat) (b 0%nat) in
    let vy := int16_of_bytes (b 3%nat) (b 2%nat) in
    let vz := int16_of_bytes (b 5%nat) (b 4%nat) in
    (_device s = device_D -> a s' = vector.mk vx vy vz) /\
    (_device s <> device_D ->
       a s' = vector.mk (vx / 16) (vy / 16) (vz / 16) /\
       (16 * (vx / 16) <= vx < 16 * (vx / 16) + 16) /\
       (16 * (vy / 16) <= vy < 16 * (vy / 16) + 16) /\
       (16 * (vz / 16) <= vz < 16 * (vz / 16) + 16) /\
       (-2048 <= vx / 16 <= 2047) /\
       (-2048 <= vy / 16 <= 2047) /\
       (-2048 <= vz / 16 <= 2047)).
Proof.
  intros Hd Hn. eexists. split; [eapply readAcc_delivered; eassumption |].
  cbn zeta. cbn [a set_a]. unfold acc_sample. rewrite !combine_bytes.
  split.
  - intros ->. reflexivity.
  - intros Hdev.
    assert (negb (deviceType_eqb (_device s) device_D) = true) as ->
        by (destruct (_device s); try reflexivity; congruence).
    rewrite !shift4_div by apply to_int16_range.
    split; [reflexivity |].
    unfold int16_of_bytes.
    repeat match goal with
           | |- context [to_int16 ?v] =>
               let R := fresh "R" in
               pose proof (to_int16_range v) as R; unfold is_int16 in R;
               generalize dependent (to_int16 v); intros
           end.
    repeat match goal with
           | |- context [?v / 16] =>
               pose proof (Z.div_mod v 16 ltac:(lia));
               pose proof (Z.mod_pos_bound v 16 ltac:(lia));
               generalize dependent (v / 16); intros
           end.
    repeat split; lia.
Qed.

(** 0xF8 0xFF is -8; a DLHC stores -1 (the low four bits, 1000b, are
    dropped with the sign kept), a D stores -8. *)
Lemma readAcc_decodes_little_endian_and_shifts_witness :
  let burst := mk_wire (fun _ => 0) (fun _ => 6)
                       (fun k => if Nat.even k then 248 else 255)
                       (fun _ => 0) in
  (exists s',
      result wire_h
        (readAcc datasheet 16 1
           (init_addresses datasheet device_DLHC sa0_high (LSM303_LSM303 blank)))
        burst = Some (tt, s')
      /\ a s' = vector.mk (-1) (-1) (-1))
  /\ (exists s',
      result wire_h
        (readAcc datasheet 16 1
           (init_addresses datasheet device_D sa0_high (LSM303_LSM303 blank)))
        burst = Some (tt, s')
      /\ a s' = vector.mk (-8) (-8) (-8)).
Proof.
  intros burst. split.
  - destruct (readAcc_decodes_little_endian_and_shifts datasheet 16
                (init_addresses datasheet device_DLHC sa0_high
                                (LSM303_LSM303 blank)) burst O 1%nat)
      as (s' & E & _ & Other).
    + split; [intros k Hk; lia | discriminate].
    + lia.
    + exists s'. split; [exact E |].
      destruct Other as [V _]; [discriminate | exact V].
  - destruct (readAcc_decodes_little_endian_and_shifts datasheet 16
                (init_addresses datasheet device_D sa0_high
                                (LSM303_LSM303 blank)) burst O 1%nat)
      as (s' & E & OnD & _).
    + split; [intros k Hk; lia | discriminate].
    + lia.
    + exists s'. split; [exact E |]. apply OnD. reflexivity.
Defined.

(** C3.  After a completed six-byte burst [b 0], ..., [b 5], [readMag] has
    stored in each component of [m] the signed 16-bit value of the axis's
    high and low byte, the bytes being taken in the order
    (X_L, X_H, Y_L, Y_H, Z_L, Z_H) on a [device_D],
    (X_H, X_L, Y_H, Y_L, Z_H, Z_L) on a [device_DLH], and
    (X_H, X_L, Z_H, Z_L, Y_H, Y_L), Z before Y, on a [device_DLM] or
    [device_DLHC]. *)
Theorem readMag_takes_the_bytes_in_the_order_of_the_device
        (bits : Z) (s : LSM303) (w : wire) (n fuel : nat) :
  read_delivered bits s w n -> (n < fuel)%nat ->
  exists s',
    result wire_h (readMag bits fuel s) w = Some (tt, s') /\
    let b k := to_byte (on_read w k) in
    (_device s = device_D ->
       m s' = vector.mk (int16_of_bytes (b 1%nat) (b 0%nat))
                        (int16_of_bytes (b 3%nat) (b 2%nat))
                        (int16_of_bytes (b 5%nat) (b 4%nat))) /\
    (_device s = device_DLH ->
       m s' = vector.mk (int16_of_bytes (b 0%nat) (b 1%nat))
                        (int16_of_bytes (b 2%nat) (b 3%nat))
                        (int16_of_bytes (b 4%nat) (b 5%nat))) /\
    (_device s = device_DLM \/ _device s = device_DLHC ->
       m s' = vector.mk (int16_of_bytes (b 0%nat) (b 1%nat))
                        (int16_of_bytes (b 4%nat) (b 5%nat))
                        (int16_of_bytes (b 2%nat) (b 3%nat))).
Proof.
  intros Hd Hn. eexists. split; [eapply readMag_delivered; eassumption |].
  cbn zeta. cbn [m set_m]. unfold mag_sample. cbn zeta.
  rewrite !combine_bytes.
  repeat split.
  - intros ->. reflexivity.
  - intros ->. reflexivity.
  - intros [-> | ->]; reflexivity.
Qed.

(** The burst 01 02 03 04 05 06 on each of the devices. *)
Lemma readMag_takes_the_bytes_in_the_order_of_the_device_witness :
  let burst := mk_wire (fun _ => 0) (fun _ => 6)
                       (fun k => Z.of_nat k + 1) (fun _ => 0) in
  let after device :=
    option_map (fun r => m (snd r))
      (result wire_h
         (readMag 16 1
            (init_addresses datasheet device sa0_high (LSM303_LSM303 blank)))
         burst) in
  after device_D = Some (vector.mk 513 1027 1541)
  /\ after device_DLH = Some (vector.mk 258 772 1286)
  /\ after device_DLM = Some (vector.mk 258 1286 772)
  /\ after device_DLHC = Some (vector.mk 258 1286 772).
Proof.
  intros burst after.
  assert (forall device,
             read_delivered 16
               (init_addresses datasheet device sa0_high (LSM303_LSM303 blank))
               burst O) as Hd
      by (intros device; split; [intros k Hk; lia | discriminate]).
  split; [| split; [| split]]; unfold after.
  - destruct (readMag_takes_the_bytes_in_the_order_of_the_device
                16 _ burst O 1%nat (Hd device_D) ltac:(lia))
      as (s' & -> & OnD & _). cbn [option_map snd]. now rewrite OnD.
  - destruct (readMag_takes_the_bytes_in_the_order_of_the_device
                16 _ burst O 1%nat (Hd device_DLH) ltac:(lia))
      as (s' & -> & _ & OnDLH & _). cbn [option_map snd]. now rewrite OnDLH.
  - destruct (readMag_takes_the_bytes_in_the_order_of_the_device
                16 _ burst O 1%nat (Hd device_DLM) ltac:(lia))
      as (s' & -> & _ & _ & Other). cbn [option_map snd].
    rewrite Other; [reflexivity | now left].
  - destruct (readMag_takes_the_bytes_in_the_order_of_the_device
                16 _ burst O 1%nat (Hd device_DLHC) ltac:(lia))
      as (s' & -> & _ & _ & Other). cbn [option_map snd].
    rewrite Other; [reflexivity | now right].
Defined.

(** ** Calibration offset *)

Lemma midpoint_exact lo hi :
  is_int16 lo -> is_int16 hi ->
  midpoint lo hi = Z.quot (lo + hi) 2 /\ is_int16 (midpoint lo hi).
Proof.
  unfold is_int16, midpoint. intros Hlo Hhi.
  rewrite (to_int32_small lo), (to_int32_small hi), (to_int32_small (lo + hi))
    by (unfold is_int32; lia).
  split; [reflexivity |].
  pose proof (Z.quot_rem' (lo + hi) 2) as Q.
  pose proof (Z.rem_bound_abs (lo + hi) 2 ltac:(lia)) as B.
  lia.
Qed.

(** C8.  With 16-bit calibration bounds and reading, [heading] subtracts from
    each axis of the reading exactly the midpoint of the bounds,
    [(min + max) / 2] with the division truncating: the 32-bit sum and the
    32-bit difference never wrap around, whatever the bounds, the extremes
    -32768 and 32767 included. *)
Theorem heading_offset_is_exact_in_32_bits (s : LSM303) :
  int16_vector (m s) -> int16_vector (m_min s) -> int16_vector (m_max s) ->
  heading_temp_m s
  = vector.mk
      (vector.x (m s) - Z.quot (vector.x (m_min s) + vector.x (m_max s)) 2)
      (vector.y (m s) - Z.quot (vector.y (m_min s) + vector.y (m_max s)) 2)
      (vector.z (m s) - Z.quot (vector.z (m_min s) + vector.z (m_max s)) 2)
  /\ midpoint (vector.x (m_min s)) (vector.x (m_max s))
     = Z.quot (vector.x (m_min s) + vector.x (m_max s)) 2
  /\ midpoint (vector.y (m_min s)) (vector.y (m_max s))
     = Z.quot (vector.y (m_min s) + vector.y (m_max s)) 2
  /\ midpoint (vector.z (m_min s)) (vector.z (m_max s))
     = Z.quot (vector.z (m_min s) + vector.z (m_max s)) 2
  /\ is_int32 (vector.x (m_min s) + vector.x (m_max s))
  /\ is_int32 (vector.y (m_min s) + vector.y (m_max s))
  /\ is_int32 (vector.z (m_min s) + vector.z (m_max s)).
Proof.
  intros (Mx & My & Mz) (Lx & Ly & Lz) (Hx & Hy & Hz).
  destruct (midpoint_exact _ _ Lx Hx) as [Ex Rx].
  destruct (midpoint_exact _ _ Ly Hy) as [Ey Ry].
  destruct (midpoint_exact _ _ Lz Hz) as [Ez Rz].
  unfold heading_temp_m. cbn zeta.
  rewrite <- Ex, <- Ey, <- Ez.
  unfold is_int16 in *.
  rewrite (to_int32_small (vector.x (m s))),
          (to_int32_small (vector.y (m s))),
          (to_int32_small (vector.z (m s))) by (unfold is_int32; lia).
  rewrite !to_int32_small by (unfold is_int32; lia).
  unfold is_int32. repeat split; lia.
Qed.

(** Both bounds at 32767 (the sum, 65534, does not fit 16 bits) under a
    reading of -32768. *)
Lemma heading_offset_is_exact_in_32_bits_witness :
  heading_temp_m
    (mkLSM303 (vector.mk 0 0 0) (vector.mk (-32768) (-32768) (-32768))
       (vector.mk 32767 32767 32767) (vector.mk 32767 32767 32767)
       0 device_D 29 29 9 8 11 10 13 12 0 false)
  = vector.mk (-65535) (-65535) (-65535).
Proof.
  refine (eq_trans
            (proj1 (heading_offset_is_exact_in_32_bits
                      (mkLSM303 (vector.mk 0 0 0)
                         (vector.mk (-32768) (-32768) (-32768))
                         (vector.mk 32767 32767 32767)
                         (vector.mk 32767 32767 32767)
                         0 device_D 29 29 9 8 11 10 13 12 0 false) _ _ _))
            _).
  - unfold int16_vector, is_int16; cbn; lia.
  - unfold int16_vector, is_int16; cbn; lia.
  - unfold int16_vector, is_int16; cbn; lia.
  - reflexivity.
Defined.

(** ** Construction *)

(** C9.  A freshly constructed driver has the calibration bounds -32767 and
    +32767 on every axis, so that the offset [heading] subtracts is zero on
    every axis; its device type is [device_auto], its timeout 0 (none) and
    its timeout flag clear. *)
Theorem constructor_defaults (s0 : LSM303) :
  let s := LSM303_LSM303 s0 in
  m_min s = vector.mk (-32767) (-32767) (-32767)
  /\ m_max s = vector.mk 32767 32767 32767
  /\ midpoint (vector.x (m_min s)) (vector.x (m_max s)) = 0
  /\ midpoint (vector.y (m_min s)) (vector.y (m_max s)) = 0
  /\ midpoint (vector.z (m_min s)) (vector.z (m_max s)) = 0
  /\ heading_temp_m s
     = vector.mk (to_int32 (to_int32 (vector.x (m s0)) - 0))
                 (to_int32 (to_int32 (vector.y (m s0)) - 0))
                 (to_int32 (to_int32 (vector.z (m s0)) - 0))
  /\ _device s = device_auto
  /\ io_timeout s = 0
  /\ getTimeout s = 0
  /\ did_timeout s = false
  /\ timeoutOccurred s = false.
Proof.
  cbv zeta. repeat split.
Qed.

(** ** Register access *)

(** What [readMagReg] does do: a register address that is not negative goes
    to the bus as it is, and on the datasheet values each of the six dummy
    addresses goes to the address [init] stored for it. *)
Lemma translate_nonnegative (H : regAddr) (reg : Z) (s : LSM303) :
  0 <= reg -> translate H reg s = reg.
Proof.
  intros Hreg. unfold translate.
  destruct (reg <? 0) eqn:E; [apply Z.ltb_lt in E; lia | reflexivity].
Qed.

Lemma translate_dummy (s : LSM303) :
  translate datasheet (OUT_X_H_M datasheet) s = out_x_h_m s
  /\ translate datasheet (OUT_X_L_M datasheet) s = out_x_l_m s
  /\ translate datasheet (OUT_Y_H_M datasheet) s = out_y_h_m s
  /\ translate datasheet (OUT_Y_L_M datasheet) s = out_y_l_m s
  /\ translate datasheet (OUT_Z_H_M datasheet) s = out_z_h_m s
  /\ translate datasheet (OUT_Z_L_M datasheet) s = out_z_l_m s.
Proof. repeat split. Qed.

Lemma readReg_calls_translated (H : regAddr) (W : Type) (h : handler W)
      (reg : Z) (s : LSM303) (w : W) :
  uses_mag H reg s = true ->
  exists rest,
    calls h (readReg H reg s) w
    = Wire_beginTransmission (mag_address s)
      :: Wire_write (to_byte (translate H reg s)) :: rest.
Proof.
  intros U. unfold readReg. rewrite U. unfold readMagReg.
  cbn [bind call calls].
  destruct (h (Wire_beginTransmission (mag_address s)) w) as [v1 w1].
  destruct (h (Wire_write (to_byte (translate H reg s))) w1) as [v2 w2].
  eexists. reflexivity.
Qed.

(** Whenever the enumerator [TEMP_OUT_L_M] is not zero, the condition holds
    for every register and device. *)
Lemma uses_mag_always (H : regAddr) (reg : Z) (s : LSM303) :
  TEMP_OUT_L_M H <> 0 -> uses_mag H reg s = true.
Proof.
  intros Nz. unfold uses_mag. apply Z.eqb_neq in Nz. rewrite Nz.
  apply orb_true_r.
Qed.

(** C6.  On a DLH (accelerometer at 0011000b, magnetometer at 0011110b)
    [readReg (CTRL_REG1_A)] and [writeReg (CTRL_REG1_A, 0x27)] address the
    magnetometer, although the device is not a D, the register is not below
    [CTRL_REG1_A] and is neither temperature register: the read returns the
    magnetometer's byte, not the 0x27 that [readAccReg] finds in the
    accelerometer's register.  The condition of lines 303 and 317 holds for
    every register and device. *)
Theorem readReg_of_an_accelerometer_register_goes_to_the_magnetometer :
  let s := init_addresses datasheet device_DLH sa0_low (LSM303_LSM303 blank) in
  let bus := power_on (lsm303dlh_at NON_D_ACC_SA0_LOW_ADDRESS) in
  let reg := CTRL_REG1_A datasheet in
  (deviceType_eqb (_device s) device_D = false
   /\ (reg <? CTRL_REG1_A datasheet) = false
   /\ (reg =? TEMP_OUT_H_M datasheet) = false
   /\ (reg =? TEMP_OUT_L_M datasheet) = false)
  /\ calls board_h (readReg datasheet reg s) bus
     = [Wire_beginTransmission NON_D_MAG_ADDRESS; Wire_write 32;
        Wire_endTransmission; Wire_requestFrom NON_D_MAG_ADDRESS 1;
        Wire_read; Wire_endTransmission]
  /\ option_map fst (result board_h (readReg datasheet reg s) bus) = Some 0
  /\ option_map fst (result board_h (readAccReg reg s) bus) = Some 39
  /\ calls board_h (writeReg datasheet reg 39 s) bus
     = [Wire_beginTransmission NON_D_MAG_ADDRESS; Wire_write 32;
        Wire_write 39; Wire_endTransmission]
  /\ (forall r t, uses_mag datasheet r t = true).
Proof.
  cbv zeta. repeat split. intros r t. apply orb_true_r.
Qed.

(** C10.  On a DLH [readReg (OUT_X_H_M)] sends the translated register
    address 0x03 that [init] stored, but [writeReg (OUT_X_H_M, 5)] sends the
    dummy address -1 converted to a byte, 0xFF: [writeMagReg], through which
    [writeReg] goes, sends the register address it is given, on every bus
    and for every register. *)
Theorem writeReg_sends_the_dummy_address_untranslated :
  let s := init_addresses datasheet device_DLH sa0_low (LSM303_LSM303 blank) in
  let bus := power_on (lsm303dlh_at NON_D_ACC_SA0_LOW_ADDRESS) in
  let reg := OUT_X_H_M datasheet in
  reg = -1
  /\ out_x_h_m s = DLH_OUT_X_H_M datasheet
  /\ translate datasheet reg s = 3
  /\ calls board_h (readReg datasheet reg s) bus
     = [Wire_beginTransmission NON_D_MAG_ADDRESS; Wire_write 3;
        Wire_endTransmission; Wire_requestFrom NON_D_MAG_ADDRESS 1;
        Wire_read; Wire_endTransmission]
  /\ calls board_h (writeReg datasheet reg 5 s) bus
     = [Wire_beginTransmission NON_D_MAG_ADDRESS; Wire_write 255;
        Wire_write 5; Wire_endTransmission]
  /\ (forall (W : Type) (h : handler W) (w : W) (r v : Z) (t : LSM303),
        calls h (writeMagReg r v t) w
        = [Wire_beginTransmission (mag_address t); Wire_write (to_byte r);
           Wire_write (to_byte v); Wire_endTransmission]).
Proof.
  cbv zeta. repeat split.
  intros W h w r v t. unfold writeMagReg. cbn [bind call calls].
  destruct (h (Wire_beginTransmission (mag_address t)) w) as [v1 w1].
  destruct (h (Wire_write (to_byte r)) w1) as [v2 w2].
  destruct (h (Wire_write (to_byte v)) w2) as [v3 w3].
  destruct (h Wire_endTransmission w3) as [v4 w4].
  reflexivity.
Qed.

(** ** Reads without a timeout *)

(** With the timeout disabled ([io_timeout] 0) and a bus that never has six
    bytes, the read methods never leave their loop. *)
Lemma read_without_timeout_keeps_polling
      (H : regAddr) (bits : Z) (s : LSM303) (w : wire) (fuel : nat) :
  io_timeout s = 0 ->
  (forall k, on_available w k < 6) ->
  result wire_h (readAcc H bits fuel s) w = None
  /\ result wire_h (readMag bits fuel s) w = None.
Proof.
  intros T Hav.
  assert (forall n, read_delivered bits s w n \/ read_starved bits s w n -> False)
    as No.
  { intros n [[_ D] | (_ & _ & E)].
    - specialize (Hav n). lia.
    - unfold expired in E. rewrite T in E. discriminate. }
  split.
  - pose proof (readAcc_exec H bits fuel s w) as X.
    destruct (result wire_h (readAcc H bits fuel s) w) as [[[] s'] |];
      [| reflexivity].
    destruct X as (n & _ & [[D _] | [S _]]); exfalso; eapply No; eauto.
  - pose proof (readMag_exec bits fuel s w) as X.
    destruct (result wire_h (readMag bits fuel s) w) as [[[] s'] |];
      [| reflexivity].
    destruct X as (n & _ & [[D _] | [S _]]); exfalso; eapply No; eauto.
Qed.

(** * Further properties *)

(** Runs a program on an arbitrary bus, naming each answer and splitting on
    each test. *)
Ltac on_any_bus h :=
  cbn [bind call exec calls];
  repeat match goal with
         | |- context [h ?op ?w0] =>
             let v := fresh "v" in
             let w1 := fresh "w" in
             destruct (h op w0) as [v w1]; cbn [bind call exec calls]
         | |- context [if ?c then _ else _] =>
             destruct c eqn:?; cbn [bind call exec calls]
         end.

(** ** What [init] touches *)

Section InitFrame.
Variable H : regAddr.
Context {W : Type} (h : handler W).


(** X2.  When [init] does not return [false], the driver is set up for one
    of the four chips: on a D both sub-devices have the same address, 0011101b
    or 0011110b; on the others the magnetometer is at 0011110b and the
    accelerometer at 0011000b or 0011001b, always the latter on a DLHC. *)
Theorem init_success_sets_consistent_addresses
        device sa0 s w r s' w' :
  exec h (init H device sa0 s) w = Some ((r, s'), w') ->
  r <> Some false ->
  _device s' <> device_auto
  /\ (_device s' = device_D ->
      acc_address s' = mag_address s'
      /\ (mag_address s' = D_SA0_HIGH_ADDRESS
          \/ mag_address s' = D_SA0_LOW_ADDRESS))
  /\ (_device s' <> device_D ->
      mag_address s' = NON_D_MAG_ADDRESS
      /\ (acc_address s' = NON_D_ACC_SA0_LOW_ADDRESS
          \/ acc_address s' = NON_D_ACC_SA0_HIGH_ADDRESS))
  /\ (_device s' = device_DLHC ->
      acc_address s' = NON_D_ACC_SA0_HIGH_ADDRESS).
Proof.
  unfold init, init_resolve, init_device, init_sa0, testReg.
  destruct device, sa0; on_any_bus h;
    intros E Ok; inversion E; subst; try congruence;
    cbn [init_addresses sa0State_eqb _device acc_address mag_address];
    repeat first [ progress intros
                 | match goal with |- _ /\ _ => split end ];
    try congruence; auto.
Qed.


(** X4.  Under detection ([device_auto]) the caller's [sa0] matters only
    when a DLM is identified: whenever the first step of [init] ends
    otherwise (another chip, or failure), [init] does the same for every
    [sa0]. *)
Theorem init_auto_uses_sa0_only_for_a_DLM sa0 s w r s1 w1 :
  exec h (init_device H device_auto sa0 s) w = Some ((r, s1), w1) ->
  (forall sa, r <> Some (device_DLM, sa)) ->
  forall sa0',
    exec h (init H device_auto sa0' s) w = exec h (init H device_auto sa0 s) w.
Proof.
  unfold init, init_resolve, init_device, init_sa0, testReg.
  on_any_bus h; intros E Hr sa0'; inversion E; subst;
    try reflexivity; exfalso; eapply Hr; reflexivity.
Qed.

End InitFrame.


(** Detection of a DLH with its accelerometer strapped low. *)
Lemma init_success_sets_consistent_addresses_witness :
  exists s',
    option_map snd
      (result board_h (init datasheet device_auto sa0_auto (LSM303_LSM303 blank))
              (power_on (lsm303dlh_at NON_D_ACC_SA0_LOW_ADDRESS))) = Some s'
    /\ mag_address s' = NON_D_MAG_ADDRESS
    /\ (acc_address s' = NON_D_ACC_SA0_LOW_ADDRESS
        \/ acc_address s' = NON_D_ACC_SA0_HIGH_ADDRESS).
Proof.
  eassert (exec board_h
             (init datasheet device_auto sa0_auto (LSM303_LSM303 blank))
             (power_on (lsm303dlh_at NON_D_ACC_SA0_LOW_ADDRESS))
           = Some ((None, _), _)) as E by by_running.
  destruct (init_success_sets_consistent_addresses
              datasheet board_h _ _ _ _ _ _ _ E ltac:(discriminate))
    as (_ & _ & NonD & _).
  eexists. split; [unfold result; rewrite E; reflexivity |].
  apply NonD. discriminate.
Defined.


(** A D strapped high is found whatever strap the caller names. *)
Lemma init_auto_uses_sa0_only_for_a_DLM_witness :
  exec board_h (init datasheet device_auto sa0_low (LSM303_LSM303 blank))
       (power_on (lsm303d_at D_SA0_HIGH_ADDRESS))
  = exec board_h (init datasheet device_auto sa0_auto (LSM303_LSM303 blank))
         (power_on (lsm303d_at D_SA0_HIGH_ADDRESS)).
Proof.
  eassert (exec board_h
             (init_device datasheet device_auto sa0_auto (LSM303_LSM303 blank))
             (power_on (lsm303d_at D_SA0_HIGH_ADDRESS))
           = Some ((Some (device_D, sa0_high), _), _)) as E by by_running.
  apply (init_auto_uses_sa0_only_for_a_DLM datasheet board_h _ _ _ _ _ _ E).
  intros sa. discriminate.
Defined.

(** X5 is [init_D_sa0_auto_calls] above: with the strap of a D left open,
    [init] addresses 0011101b only.  Here on a bus with a D strapped low:
    the strap-high address is asked, the strap-low address is not. *)
Lemma init_D_sa0_auto_calls_witness :
  let asked :=
    calls board_h (init datasheet device_D sa0_auto (LSM303_LSM303 blank))
          (power_on (lsm303d_at D_SA0_LOW_ADDRESS)) in
  In (Wire_requestFrom 29 1) asked
  /\ 29 = D_SA0_HIGH_ADDRESS
  /\ ~ In (Wire_requestFrom D_SA0_LOW_ADDRESS 1) asked.
Proof.
  intros asked.
  assert (In (Wire_requestFrom 29 1) asked) as Hin by (cbv; tauto).
  split; [exact Hin |]. split.
  - apply (init_D_sa0_auto_calls datasheet board_h (LSM303_LSM303 blank)
             (power_on (lsm303d_at D_SA0_LOW_ADDRESS))
             (Wire_requestFrom 29 1) Hin 29).
    right. reflexivity.
  - intros Hlow.
    pose proof (init_D_sa0_auto_calls datasheet board_h (LSM303_LSM303 blank)
                  (power_on (lsm303d_at D_SA0_LOW_ADDRESS))
                  _ Hlow D_SA0_LOW_ADDRESS (or_intror eq_refl)) as E.
    discriminate E.
Defined.

(** ** Register access *)

Section RegisterFacts.
Variable H : regAddr.

(** X6.  When the six dummy addresses are negative and distinct and
    [CTRL_REG1_A] is a proper (non-negative) address, [readReg] of a dummy
    address addresses the magnetometer and sends the translated address
    stored for it, on every device and bus; an address that is none of the
    six is never translated. *)
Theorem readReg_translates_the_dummy_addresses
        (W : Type) (h : handler W) (s : LSM303) (w : W) :
  dummies_well_formed H -> 0 <= CTRL_REG1_A H ->
  (forall dummy stored, In (dummy, stored) (dummy_table H s) ->
     translate H dummy s = stored
     /\ exists rest,
         calls h (readReg H dummy s) w
         = Wire_beginTransmission (mag_address s)
           :: Wire_write (to_byte stored) :: rest)
  /\ (forall reg, ~ In reg (map fst (dummy_table H s)) ->
       translate H reg s = reg).
Proof.
  intros [ND Neg] Hc. split.
  - intros dummy stored Hin.
    repeat (apply NoDup_cons_iff in ND; destruct ND as [? ND]).
    repeat (apply Forall_cons_iff in Neg; destruct Neg as [? Neg]).
    cbn [In] in *.
    assert (translate H dummy s = stored) as T.
    { unfold translate, dummy_table in *. cbn [In] in Hin.
      repeat destruct Hin as [Hin | Hin]; try contradiction;
        inversion Hin; subst dummy stored;
        (rewrite (proj2 (Z.ltb_lt _ _)) by assumption);
        repeat match goal with
               | |- context [?p =? ?q] =>
                   destruct (Z.eqb_spec p q); try reflexivity;
                   try (exfalso; tauto)
               end. }
    split; [exact T |]. rewrite <- T.
    apply readReg_calls_translated. unfold uses_mag.
    assert (dummy < 0) as Hd.
    { unfold dummy_table in Hin. cbn [In] in Hin.
      repeat destruct Hin as [Hin | Hin]; try contradiction;
        inversion Hin; subst; assumption. }
    rewrite (proj2 (Z.ltb_lt dummy (CTRL_REG1_A H)))
      by (apply Z.lt_le_trans with 0; assumption).
    now destruct (deviceType_eqb (_device s) device_D).
  - intros reg Hn. unfold translate. cbn [map fst dummy_table In] in Hn.
    destruct (reg <? 0); [| reflexivity].
    repeat match goal with
           | |- context [?p =? ?q] =>
               destruct (Z.eqb_spec p q); [exfalso; apply Hn; subst; tauto |]
           end.
    reflexivity.
Qed.

(** X7.  On a driver set up for a D (both sub-devices at one address) the
    choice between accelerometer and magnetometer access does not matter:
    [writeReg] is the very program [writeAccReg], and [readReg] of a proper
    register address the very program [readAccReg]. *)
Theorem on_a_D_either_access_is_the_same (s : LSM303) :
  _device s = device_D -> acc_address s = mag_address s ->
  (forall reg value, writeReg H reg value s = writeAccReg reg value s)
  /\ (forall reg, 0 <= reg -> readReg H reg s = readAccReg reg s).
Proof.
  intros Hd Ha. split.
  - intros reg value. unfold writeReg, uses_mag. rewrite Hd. cbn [deviceType_eqb orb].
    unfold writeMagReg, writeAccReg. now rewrite Ha.
  - intros reg Hreg. unfold readReg, uses_mag. rewrite Hd. cbn [deviceType_eqb orb].
    unfold readMagReg, readAccReg.
    rewrite translate_nonnegative by assumption. cbn zeta.
    cbn [mag_address acc_address set_last_status]. now rewrite Ha.
Qed.

End RegisterFacts.

Lemma readReg_translates_the_dummy_addresses_witness :
  let s := init_addresses datasheet device_DLM sa0_low (LSM303_LSM303 blank) in
  translate datasheet (OUT_Y_H_M datasheet) s = DLM_OUT_Y_H_M datasheet
  /\ translate datasheet (OUT_Z_L_M datasheet) s = DLM_OUT_Z_L_M datasheet.
Proof.
  intros s.
  assert (dummies_well_formed datasheet) as Wf.
  { split.
    - repeat (apply NoDup_cons; [cbn [In]; intuition discriminate |]).
      apply NoDup_nil.
    - repeat (apply Forall_cons; [reflexivity |]). apply Forall_nil. }
  destruct (readReg_translates_the_dummy_addresses datasheet board board_h s
              (power_on (fun _ _ => None)) Wf ltac:(discriminate))
    as [T _].
  split.
  - apply (T (OUT_Y_H_M datasheet) (out_y_h_m s)). cbn. tauto.
  - apply (T (OUT_Z_L_M datasheet) (out_z_l_m s)). cbn. tauto.
Defined.

Lemma on_a_D_either_access_is_the_same_witness :
  let s := init_addresses datasheet device_D sa0_low (LSM303_LSM303 blank) in
  readReg datasheet 32 s = readAccReg 32 s.
Proof.
  intros s.
  apply (on_a_D_either_access_is_the_same datasheet s eq_refl eq_refl).
  discriminate.
Defined.

(** ** Sample reads on any bus *)

Section ReadFrame.
Variable H : regAddr.
Variable bits : Z.
Context {W : Type} (h : handler W).

(** On any bus the loop ends with the state it started with, or with that
    state and the timeout flag set. *)
Lemma wait_available_any_bus fuel start s w ready s' w' :
  exec h (wait_available bits fuel start s) w = Some ((ready, s'), w') ->
  (ready = true /\ s' = s) \/ (ready = false /\ s' = set_did_timeout true s).
Proof.
  revert w; induction fuel as [| fuel IH]; intros w; [discriminate |].
  cbn [wait_available]. on_any_bus h; intros E.
  - now inversion E; right.
  - eapply IH; eassumption.
  - eapply IH; eassumption.
  - now inversion E; left.
Qed.

(** X8.  On any bus a sample read that returns has changed nothing but its
    own vector, the bus status and the timeout flag: [readAcc] leaves [m],
    [readMag] leaves [a], and both leave the calibration bounds, the timeout
    and the whole setup of [init] as they were. *)
Theorem a_sample_read_touches_only_its_own_vector fuel s w s' w' :
  (exec h (readAcc H bits fuel s) w = Some ((tt, s'), w') ->
   same_setup s s' /\ m s' = m s /\ m_max s' = m_max s /\ m_min s' = m_min s
   /\ io_timeout s' = io_timeout s)
  /\
  (exec h (readMag bits fuel s) w = Some ((tt, s'), w') ->
   same_setup s s' /\ a s' = a s /\ m_max s' = m_max s /\ m_min s' = m_min s
   /\ io_timeout s' = io_timeout s).
Proof.
  split.
  - unfold readAcc. cbn [bind call exec].
    repeat match goal with
           | |- context [h ?op ?w0] =>
               let v := fresh "v" in
               let w1 := fresh "w" in
               destruct (h op w0) as [v w1]; cbn [bind call exec]
           end.
    rewrite exec_bind.
    match goal with
    | |- context [exec h (wait_available bits fuel ?st ?s1) ?w1] =>
        destruct (exec h (wait_available bits fuel st s1) w1)
          as [[[ready sl] wl] |] eqn:Ew; [| discriminate];
        destruct (wait_available_any_bus _ _ _ _ _ _ _ Ew) as [[-> ->] | [-> ->]]
    end.
    + on_any_bus h; intros E; inversion E; subst; repeat split.
    + cbn [exec]. intros E; inversion E; subst; repeat split.
  - unfold readMag. cbn [bind call exec].
    repeat match goal with
           | |- context [h ?op ?w0] =>
               let v := fresh "v" in
               let w1 := fresh "w" in
               destruct (h op w0) as [v w1]; cbn [bind call exec]
           end.
    rewrite exec_bind.
    match goal with
    | |- context [exec h (wait_available bits fuel ?st ?s1) ?w1] =>
        destruct (exec h (wait_available bits fuel st s1) w1)
          as [[[ready sl] wl] |] eqn:Ew; [| discriminate];
        destruct (wait_available_any_bus _ _ _ _ _ _ _ Ew) as [[-> ->] | [-> ->]]
    end.
    + cbn [_device set_did_timeout set_last_status].
      destruct (_device s); cbn [deviceType_eqb];
        on_any_bus h; intros E; inversion E; subst; repeat split.
    + cbn [exec]. intros E; inversion E; subst; repeat split.
Qed.

End ReadFrame.

Lemma a_sample_read_touches_only_its_own_vector_witness :
  let s := init_addresses datasheet device_DLH sa0_low (LSM303_LSM303 blank) in
  let bus := mk_wire (fun _ => 0) (fun _ => 6) (fun k => Z.of_nat k)
                     (fun _ => 0) in
  exists s', result wire_h (readAcc datasheet 16 1 s) bus = Some (tt, s')
             /\ m s' = m s /\ same_setup s s'.
Proof.
  intros s bus.
  eassert (exec wire_h (readAcc datasheet 16 1 s) bus = Some ((tt, _), _)) as E
      by (cbv; reflexivity).
  destruct (proj1 (a_sample_read_touches_only_its_own_vector
                     datasheet 16 wire_h 1%nat s bus _ _) E)
    as (Setup & M & _).
  eexists. split; [unfold result; rewrite E; reflexivity |].
  split; [exact M | exact Setup].
Defined.

(** ** Timeouts *)

Section TimeoutFacts.
Variable H : regAddr.
Variable bits : Z.

(** The unsigned subtraction gives the time that really went by, as long as
    that is less than the period of the counter. *)
Lemma elapsed_exact (t0 t : Z) :
  0 <= bits -> 0 <= t - t0 < 2 ^ bits ->
  to_uint bits (to_uint bits t - to_uint bits t0) = t - t0.
Proof.
  intros Hb Hr. unfold to_uint.
  rewrite <- Zminus_mod. now apply Z.mod_small.
Qed.

Lemma to_uint_below (v : Z) : 0 <= bits -> 0 <= to_uint bits v <= 2 ^ bits - 1.
Proof.
  intros Hb. unfold to_uint.
  pose proof (Z.pow_pos_nonneg 2 bits ltac:(lia) Hb).
  pose proof (Z.mod_pos_bound v (2 ^ bits) ltac:(lia)). lia.
Qed.

(** X9.  [read] reports only the magnetometer's timeout: when [readAcc] has
    timed out and the [readMag] that follows gets its six bytes, [read]
    returns with the flag clear although [a] still is the old sample. *)
Theorem read_forgets_an_accelerometer_timeout fuel s w s1 w1 n :
  exec wire_h (readAcc H bits fuel s) w = Some ((tt, s1), w1) ->
  did_timeout s1 = true ->
  read_delivered bits s1 w1 n -> (n < fuel)%nat ->
  exists s2,
    result wire_h (read H bits fuel s) w = Some (tt, s2)
    /\ timeoutOccurred s2 = false
    /\ a s2 = a s.
Proof.
  intros E T D Hn.
  pose proof (readAcc_exec H bits fuel s w) as X.
  unfold result in X. rewrite E in X. cbn [option_map fst] in X.
  destruct X as (k & _ & [[_ ->] | [_ ->]]); [discriminate T |].
  pose proof (readMag_delivered bits fuel _ w1 n D Hn) as M.
  unfold result in *. unfold read. rewrite exec_bind, E.
  destruct (exec wire_h (readMag bits fuel _) w1) as [[[[] s2] w2] |];
    [| discriminate M].
  cbn [option_map fst] in *. inversion M; subst s2.
  eexists. split; [reflexivity |]. split; reflexivity.
Qed.

(** X10.  The timeout is measured on the time that really went by, also
    across a wrap-around of the millisecond counter: if [time] is the real
    time of which [millis()] shows the low bits, no poll up to the [n]-th
    finds six bytes, and the [n]-th is the first after more than
    [io_timeout] ms (less than a counter period in all), then both read
    methods time out there, leaving their vector as it was. *)
Theorem the_timeout_survives_counter_wraparound
        (time : nat -> Z) fuel s w n :
  0 <= bits ->
  0 < io_timeout s ->
  (forall k, to_uint bits (on_millis w k) = to_uint bits (time k)) ->
  (forall k, (k <= n)%nat -> on_available w k < 6) ->
  (forall k, (k <= n)%nat -> 0 <= time (S k) - time O < 2 ^ bits) ->
  (forall k, (k < n)%nat -> time (S k) - time O <= io_timeout s) ->
  io_timeout s < time (S n) - time O ->
  (n < fuel)%nat ->
  (exists s', result wire_h (readAcc H bits fuel s) w = Some (tt, s')
              /\ did_timeout s' = true /\ a s' = a s)
  /\ (exists s', result wire_h (readMag bits fuel s) w = Some (tt, s')
              /\ did_timeout s' = true /\ m s' = m s).
Proof.
  intros Hb Ht Hclock Hav Hper Hbefore Hat Hn.
  assert (forall k, (k <= n)%nat ->
            expired bits (io_timeout s) (to_uint bits (on_millis w O))
                    (next (on_millis w)) k
            = (time (S k) - time O >? io_timeout s)) as Hex.
  { intros k Hk. unfold expired, next.
    rewrite (proj2 (Z.ltb_lt _ _) Ht), !Hclock. cbn [andb].
    now rewrite elapsed_exact by auto. }
  assert (read_starved bits s w n) as St.
  { split; [exact Hav | split].
    - intros k Hk. rewrite Hex by lia.
      specialize (Hbefore k Hk). rewrite Z.gtb_ltb. apply Z.ltb_ge. lia.
    - rewrite Hex by lia. rewrite Z.gtb_ltb. apply Z.ltb_lt. lia. }
  split; eexists.
  - split; [eapply readAcc_starved; eassumption | now split].
  - split; [eapply readMag_starved; eassumption | now split].
Qed.

(** X11.  A read method can only time out under a timeout strictly between
    0 and the largest [unsigned int]: 0 disables the timeout, and so does the
    largest value, which no elapsed time exceeds. *)
Theorem only_a_timeout_below_the_maximum_can_fire fuel s w s' :
  0 <= bits ->
  result wire_h (readAcc H bits fuel s) w = Some (tt, s')
  \/ result wire_h (readMag bits fuel s) w = Some (tt, s') ->
  did_timeout s' = true ->
  0 < io_timeout s < 2 ^ bits - 1.
Proof.
  intros Hb E T.
  assert (exists n, read_starved bits s w n) as [n (_ & _ & Ex)].
  { destruct E as [E | E].
    - pose proof (readAcc_exec H bits fuel s w) as X. rewrite E in X.
      destruct X as (n & _ & [[_ ->] | [St _]]); [discriminate T | eauto].
    - pose proof (readMag_exec bits fuel s w) as X. rewrite E in X.
      destruct X as (n & _ & [[_ ->] | [St _]]); [discriminate T | eauto]. }
  unfold expired in Ex. apply andb_true_iff in Ex. destruct Ex as [Pos Gt].
  apply Z.ltb_lt in Pos. rewrite Z.gtb_ltb in Gt. apply Z.ltb_lt in Gt.
  match type of Gt with
  | _ < to_uint bits ?v => pose proof (to_uint_below v Hb)
  end.
  lia.
Qed.

End TimeoutFacts.

(** The accelerometer never answers within 10 ms, the magnetometer has its
    bytes at once. *)
Lemma read_forgets_an_accelerometer_timeout_witness :
  let s := set_io_timeout 10 (LSM303_LSM303 blank) in
  let bus := mk_wire (fun _ => 0) (fun k => match k with O => 0 | _ => 6 end)
                     (fun _ => 0) (fun k => 100 * Z.of_nat k) in
  exists s2,
    result wire_h (read datasheet 16 1 s) bus = Some (tt, s2)
    /\ timeoutOccurred s2 = false /\ a s2 = a s.
Proof.
  intros s bus.
  eassert (exec wire_h (readAcc datasheet 16 1 s) bus = Some ((tt, _), _)) as E
      by (cbv; reflexivity).
  apply (read_forgets_an_accelerometer_timeout datasheet 16 1 s bus _ _ O E).
  - reflexivity.
  - split; [intros k Hk; lia | discriminate].
  - lia.
Defined.

(** A 16-bit counter that shows 65530 at the start and wraps to 4 ten
    milliseconds later, under a timeout of 5 ms. *)
Lemma the_timeout_survives_counter_wraparound_witness :
  let s := set_io_timeout 5 (LSM303_LSM303 blank) in
  let bus := mk_wire (fun _ => 0) (fun _ => 0) (fun _ => 0)
                     (fun k => (65530 + 10 * Z.of_nat k) mod 65536) in
  on_millis bus 1%nat < on_millis bus 0%nat
  /\ exists s', result wire_h (readAcc datasheet 16 1 s) bus = Some (tt, s')
                /\ did_timeout s' = true /\ a s' = a s.
Proof.
  intros s bus. split; [reflexivity |].
  apply (the_timeout_survives_counter_wraparound datasheet 16
           (fun k => 65530 + 10 * Z.of_nat k) 1 s bus O).
  - lia.
  - reflexivity.
  - intros k. unfold to_uint. cbn [on_millis bus]. apply Z.mod_mod. discriminate.
  - intros k Hk. reflexivity.
  - intros k Hk. replace k with O by lia. cbn. lia.
  - intros k Hk. lia.
  - reflexivity.
  - lia.
Defined.

Lemma only_a_timeout_below_the_maximum_can_fire_witness :
  0 < io_timeout (set_io_timeout 10 (LSM303_LSM303 blank)) < 2 ^ 16 - 1.
Proof.
  eassert (result wire_h
             (readAcc datasheet 16 1 (set_io_timeout 10 (LSM303_LSM303 blank)))
             (mk_wire (fun _ => 0) (fun _ => 0) (fun _ => 0)
                      (fun k => 100 * Z.of_nat k))
           = Some (tt, _)) as E by (cbv; reflexivity).
  apply (only_a_timeout_below_the_maximum_can_fire datasheet 16 1
           (set_io_timeout 10 (LSM303_LSM303 blank)) _ _ ltac:(lia)
           (or_introl E)).
  reflexivity.
Defined.

(** ** Round trips *)

Lemma int16_bytes_round_trip v :
  is_int16 v ->
  combine (to_byte (high_byte v)) (to_byte (low_byte v)) = v.
Proof.
  intros Hv. rewrite combine_bytes.
  unfold int16_of_bytes, to_byte, high_byte, low_byte, to_int16, is_int16 in *.
  Z.div_mod_to_equations. lia.
Qed.

Lemma shift4_left_justified v j :
  is_int12 v -> 0 <= j < 16 -> shift4 (16 * v + j) = v.
Proof.
  unfold is_int12. intros Hv Hj.
  rewrite shift4_div by (unfold is_int16; lia).
  Z.div_mod_to_equations. lia.
Qed.

Section RoundTrips.
Variable H : regAddr.
Variable bits : Z.

(** X12.  [readMag] undoes the byte order of its device: when a
    magnetometer puts the 16-bit reading ([vx], [vy], [vz]) on the bus in
    the order of its kind, [m] is exactly that reading, on each of the four
    devices. *)
Theorem readMag_recovers_the_reading_of_each_device
        (s : LSM303) (w : wire) (n fuel : nat) (vx vy vz : Z) :
  is_int16 vx -> is_int16 vy -> is_int16 vz ->
  (forall k, (k < 6)%nat ->
     on_read w k = buffer (mag_bytes (_device s) vx vy vz) k) ->
  read_delivered bits s w n -> (n < fuel)%nat ->
  exists s',
    result wire_h (readMag bits fuel s) w = Some (tt, s')
    /\ m s' = vector.mk vx vy vz.
Proof.
  intros Hx Hy Hz Hrx Hd Hn.
  eexists. split; [eapply readMag_delivered; eassumption |].
  cbn [m set_m]. unfold mag_sample. cbn zeta.
  rewrite (Hrx 0%nat), (Hrx 1%nat), (Hrx 2%nat), (Hrx 3%nat), (Hrx 4%nat),
          (Hrx 5%nat) by lia.
  destruct (_device s); cbn [deviceType_eqb mag_bytes little_endian_xyz buffer nth];
    now rewrite !int16_bytes_round_trip by assumption.
Qed.

(** X13.  [readAcc] recovers what the accelerometer measured: on a D the
    16-bit reading itself; on the other devices, which send a 12-bit reading
    left-justified in 16 bits, that 12-bit reading, whatever the four low
    bits are. *)
Theorem readAcc_recovers_the_reading
        (s : LSM303) (w : wire) (n fuel : nat) (vx vy vz jx jy jz : Z) :
  read_delivered bits s w n -> (n < fuel)%nat ->
  (_device s = device_D ->
   is_int16 vx -> is_int16 vy -> is_int16 vz ->
   (forall k, (k < 6)%nat ->
      on_read w k = buffer (little_endian_xyz vx vy vz) k) ->
   exists s',
     result wire_h (readAcc H bits fuel s) w = Some (tt, s')
     /\ a s' = vector.mk vx vy vz)
  /\
  (_device s <> device_D ->
   is_int12 vx -> is_int12 vy -> is_int12 vz ->
   0 <= jx < 16 -> 0 <= jy < 16 -> 0 <= jz < 16 ->
   (forall k, (k < 6)%nat ->
      on_read w k
      = buffer (little_endian_xyz (16 * vx + jx) (16 * vy + jy)
                                  (16 * vz + jz)) k) ->
   exists s',
     result wire_h (readAcc H bits fuel s) w = Some (tt, s')
     /\ a s' = vector.mk vx vy vz).
Proof.
  intros Hd Hn. split.
  - intros Dev Hx Hy Hz Hrx.
    eexists. split; [eapply readAcc_delivered; eassumption |].
    cbn [a set_a]. unfold acc_sample. rewrite Dev. cbn [deviceType_eqb negb].
    rewrite (Hrx 0%nat), (Hrx 1%nat), (Hrx 2%nat), (Hrx 3%nat), (Hrx 4%nat),
            (Hrx 5%nat) by lia.
    cbn [little_endian_xyz buffer nth].
    now rewrite !int16_bytes_round_trip by assumption.
  - intros Dev Hx Hy Hz Hjx Hjy Hjz Hrx.
    eexists. split; [eapply readAcc_delivered; eassumption |].
    cbn [a set_a]. unfold acc_sample.
    assert (negb (deviceType_eqb (_device s) device_D) = true) as ->
        by (destruct (_device s); try reflexivity; congruence).
    rewrite (Hrx 0%nat), (Hrx 1%nat), (Hrx 2%nat), (Hrx 3%nat), (Hrx 4%nat),
            (Hrx 5%nat) by lia.
    cbn [little_endian_xyz buffer nth].
    unfold is_int12 in *.
    rewrite !int16_bytes_round_trip by (unfold is_int16; lia).
    now rewrite !shift4_left_justified by (unfold is_int12; lia).
Qed.

End RoundTrips.

(** The reading (-1, 256, -32768) of a DLM, which sends Z before Y. *)
Lemma readMag_recovers_the_reading_of_each_device_witness :
  let s := init_addresses datasheet device_DLM sa0_low (LSM303_LSM303 blank) in
  let bus := mk_wire (fun _ => 0) (fun _ => 6)
                     (buffer [255; 255; 128; 0; 1; 0]) (fun _ => 0) in
  exists s', result wire_h (readMag 16 1 s) bus = Some (tt, s')
             /\ m s' = vector.mk (-1) 256 (-32768).
Proof.
  intros s bus.
  apply (readMag_recovers_the_reading_of_each_device 16 s bus O 1).
  - unfold is_int16; lia.
  - unfold is_int16; lia.
  - unfold is_int16; lia.
  - intros k Hk.
    do 6 (destruct k as [| k]; [reflexivity |]). lia.
  - split; [intros k Hk; lia | discriminate].
  - lia.
Defined.

(** The reading (-3, 5, 2047) of a DLHC with low bits 1111, 0000, 1000. *)
Lemma readAcc_recovers_the_reading_witness :
  let s := init_addresses datasheet device_DLHC sa0_high (LSM303_LSM303 blank) in
  let bus := mk_wire (fun _ => 0) (fun _ => 6)
                     (buffer [223; 255; 80; 0; 248; 127]) (fun _ => 0) in
  exists s', result wire_h (readAcc datasheet 16 1 s) bus = Some (tt, s')
             /\ a s' = vector.mk (-3) 5 2047.
Proof.
  intros s bus.
  assert (read_delivered 16 s bus O) as D
      by (split; [intros k Hk; lia | discriminate]).
  destruct (readAcc_recovers_the_reading datasheet 16 s bus O 1
              (-3) 5 2047 15 0 8 D ltac:(lia)) as [_ Other].
  apply Other; try (unfold is_int12; lia); try lia.
  - discriminate.
  - intros k Hk.
    do 6 (destruct k as [| k]; [reflexivity |]). lia.
Defined.

(** ** [enableDefault] *)

(** X14.  [enableDefault] always returns, touches neither the data nor the
    setup, and leaves in [last_status] the status of its last write alone
    (the third on a D or DLHC, the second otherwise): a failure of an earlier
    write cannot be seen afterwards. *)
Theorem enableDefault_reports_only_its_last_write
        (H : regAddr) (C : ctrlAddr) (s : LSM303) (w : wire) :
  exists s' w',
    exec wire_h (enableDefault H C s) w = Some ((tt, s'), w')
    /\ same_data s s' /\ same_setup s s'
    /\ last_status s'
       = to_byte (on_endTransmission w
                    (if deviceType_eqb (_device s) device_D
                        || deviceType_eqb (_device s) device_DLHC
                     then 2%nat else 1%nat)).
Proof.
  unfold enableDefault, writeAccReg, writeMagReg.
  destruct (_device s) eqn:Dev; cbn [deviceType_eqb orb];
    cbn [bind call exec wire_h on_endTransmission on_available on_read
         on_millis _device set_last_status];
    rewrite ?Dev; cbn [deviceType_eqb bind call exec wire_h on_endTransmission
                       on_available on_read on_millis];
    do 2 eexists; (split; [reflexivity |]);
    repeat split; assumption.
Qed.

(** ** The cross product in [heading] *)

Lemma product_bound (p q P Q : Z) :
  - P <= p <= P -> - Q <= q <= Q -> - (P * Q) <= p * q <= P * Q.
Proof. intros Hp Hq. nia. Qed.

(** The reading less the offset is within 17 bits. *)
Lemma heading_temp_m_range (s : LSM303) :
  int16_vector (m s) -> int16_vector (m_min s) -> int16_vector (m_max s) ->
  (-65535 <= vector.x (heading_temp_m s) <= 65535)
  /\ (-65535 <= vector.y (heading_temp_m s) <= 65535)
  /\ (-65535 <= vector.z (heading_temp_m s) <= 65535).
Proof.
  intros (Mx & My & Mz) (Lx & Ly & Lz) (Hx & Hy & Hz).
  destruct (midpoint_exact _ _ Lx Hx) as [_ Rx].
  destruct (midpoint_exact _ _ Ly Hy) as [_ Ry].
  destruct (midpoint_exact _ _ Lz Hz) as [_ Rz].
  unfold heading_temp_m. cbn zeta. cbn [vector.x vector.y vector.z].
  unfold is_int16 in *.
  rewrite (to_int32_small (vector.x (m s))),
          (to_int32_small (vector.y (m s))),
          (to_int32_small (vector.z (m s))) by (unfold is_int32; lia).
  rewrite !to_int32_small by (unfold is_int32; lia).
  lia.
Qed.

(** When all products and differences fit, the 32-bit computation is the
    cross product. *)
Lemma vector_cross_exact (u v : vector.t) :
  is_int32 (vector.x u) -> is_int32 (vector.y u) -> is_int32 (vector.z u) ->
  is_int32 (vector.x v) -> is_int32 (vector.y v) -> is_int32 (vector.z v) ->
  cross_fits u v -> vector_cross u v = cross u v.
Proof.
  intros Ux Uy Uz Vx Vy Vz ((P1 & P2 & P3 & P4 & P5 & P6) & Cx & Cy & Cz).
  unfold vector_cross, cross in *. cbn zeta.
  cbn [vector.x vector.y vector.z] in *.
  rewrite (to_int32_small (vector.x u)), (to_int32_small (vector.y u)),
          (to_int32_small (vector.z u)), (to_int32_small (vector.x v)),
          (to_int32_small (vector.y v)), (to_int32_small (vector.z v))
    by assumption.
  rewrite (to_int32_small (vector.y u * vector.z v)),
          (to_int32_small (vector.z u * vector.y v)),
          (to_int32_small (vector.z u * vector.x v)),
          (to_int32_small (vector.x u * vector.z v)),
          (to_int32_small (vector.x u * vector.y v)),
          (to_int32_small (vector.y u * vector.x v)) by assumption.
  now rewrite !to_int32_small by assumption.
Qed.

(** Bounds on the components give the fit. *)
Lemma cross_fits_of_bounds (u v : vector.t) (P Q : Z) :
  0 <= P -> 0 <= Q -> 2 * (P * Q) <= 2147483647 ->
  (- P <= vector.x u <= P) -> (- P <= vector.y u <= P) ->
  (- P <= vector.z u <= P) ->
  (- Q <= vector.x v <= Q) -> (- Q <= vector.y v <= Q) ->
  (- Q <= vector.z v <= Q) ->
  cross_fits u v.
Proof.
  intros HP HQ Hfit Ux Uy Uz Vx Vy Vz.
  pose proof (product_bound _ _ P Q Uy Vz).
  pose proof (product_bound _ _ P Q Uz Vy).
  pose proof (product_bound _ _ P Q Uz Vx).
  pose proof (product_bound _ _ P Q Ux Vz).
  pose proof (product_bound _ _ P Q Ux Vy).
  pose proof (product_bound _ _ P Q Uy Vx).
  unfold cross_fits, cross, is_int32. cbn [vector.x vector.y vector.z].
  repeat split; lia.
Qed.

(** X15.  With the 12-bit acceleration that [readAcc] stores on every device
    but the D, the cross product of line 469 never overflows its 32-bit
    arithmetic, whatever the 16-bit reading and calibration bounds: it is the
    exact cross product of the offset reading and [a]. *)
Theorem heading_cross_product_fits_with_12_bit_acceleration (s : LSM303) :
  int16_vector (m s) -> int16_vector (m_min s) -> int16_vector (m_max s) ->
  int12_vector (a s) ->
  cross_fits (heading_temp_m s) (a s)
  /\ vector_cross (heading_temp_m s) (a s) = cross (heading_temp_m s) (a s).
Proof.
  intros Hm Hlo Hhi (Ax & Ay & Az).
  destruct (heading_temp_m_range s Hm Hlo Hhi) as (Tx & Ty & Tz).
  unfold is_int12 in *.
  assert (cross_fits (heading_temp_m s) (a s)) as F
      by (apply (cross_fits_of_bounds _ _ 65535 2048); lia).
  split; [exact F |].
  apply vector_cross_exact; unfold is_int32; try lia; exact F.
Qed.

(** X16.  With calibration bounds symmetric about zero on every axis, as the
    constructor sets them, the cross product of line 469 never overflows
    either, for every 16-bit reading and every 16-bit acceleration (a D's
    included): the offset is zero and the result is the exact cross product
    of [m] and [a]. *)
Theorem heading_cross_product_fits_with_symmetric_bounds (s : LSM303) :
  int16_vector (m s) -> int16_vector (a s) ->
  int16_vector (m_min s) -> int16_vector (m_max s) ->
  vector.x (m_min s) + vector.x (m_max s) = 0 ->
  vector.y (m_min s) + vector.y (m_max s) = 0 ->
  vector.z (m_min s) + vector.z (m_max s) = 0 ->
  heading_temp_m s = m s
  /\ cross_fits (m s) (a s)
  /\ vector_cross (heading_temp_m s) (a s) = cross (m s) (a s).
Proof.
  intros (Mx & My & Mz) (Ax & Ay & Az) (Lx & Ly & Lz) (Hx & Hy & Hz) Sx Sy Sz.
  assert (heading_temp_m s = m s) as T.
  { destruct (midpoint_exact _ _ Lx Hx) as [Ex _].
    destruct (midpoint_exact _ _ Ly Hy) as [Ey _].
    destruct (midpoint_exact _ _ Lz Hz) as [Ez _].
    unfold heading_temp_m. cbn zeta. rewrite Ex, Ey, Ez, Sx, Sy, Sz.
    change (Z.quot 0 2) with 0. unfold is_int16 in *.
    rewrite (to_int32_small (vector.x (m s))),
            (to_int32_small (vector.y (m s))),
            (to_int32_small (vector.z (m s))) by (unfold is_int32; lia).
    rewrite !Z.sub_0_r.
    rewrite !to_int32_small by (unfold is_int32; lia).
    now destruct (m s). }
  assert (cross_fits (m s) (a s)) as F.
  { unfold is_int16 in *.
    unfold cross_fits, cross, is_int32. cbn [vector.x vector.y vector.z].
    repeat split; nia. }
  split; [exact T |]. split; [exact F |]. rewrite T.
  unfold is_int16 in *.
  apply vector_cross_exact; unfold is_int32; try lia; exact F.
Qed.

(** X17.  Sixteen-bit members alone do not keep the cross product within 32
    bits: with a D's full-scale acceleration and calibration bounds far off
    centre the X component of line 482 exceeds the largest [int32_t]. *)
Theorem heading_cross_product_can_overflow_on_a_D :
  exists s : LSM303,
    int16_vector (m s) /\ int16_vector (a s)
    /\ int16_vector (m_min s) /\ int16_vector (m_max s)
    /\ 2147483647 < vector.x (cross (heading_temp_m s) (a s))
    /\ ~ cross_fits (heading_temp_m s) (a s).
Proof.
  exists (mkLSM303 (vector.mk 0 32767 32767) (vector.mk 0 32767 (-32768))
                   (vector.mk 0 (-32768) 32767) (vector.mk 0 (-32768) 32767)
                   0 device_D 29 29 9 8 11 10 13 12 0 false).
  unfold int16_vector, is_int16. cbn.
  repeat split; try lia.
  intros (_ & Cx & _). unfold is_int32 in Cx. cbn in Cx. lia.
Qed.

Lemma heading_cross_product_fits_with_12_bit_acceleration_witness :
  let s := mkLSM303 (vector.mk 2047 (-2048) 100) (vector.mk 32767 (-32768) 5)
                    (vector.mk (-32768) 32767 0) (vector.mk (-32768) 32767 0)
                    0 device_DLHC 25 30 3 4 7 8 5 6 0 false in
  vector_cross (heading_temp_m s) (a s) = cross (heading_temp_m s) (a s).
Proof.
  intros s.
  apply (heading_cross_product_fits_with_12_bit_acceleration s);
    unfold int16_vector, int12_vector, is_int16, is_int12; cbn; lia.
Defined.

Lemma heading_cross_product_fits_with_symmetric_bounds_witness :
  let s := set_a (vector.mk (-32768) (-32768) 32767)
             (set_m (vector.mk (-32768) 32767 (-32768)) (LSM303_LSM303 blank)) in
  vector_cross (heading_temp_m s) (a s) = cross (m s) (a s).
Proof.
  intros s.
  apply (heading_cross_product_fits_with_symmetric_bounds s);
    unfold int16_vector, is_int16; cbn; lia.
Defined.

(** ** Giving up *)


